(** * ueberzug: the command engine, the redraw scheduler and the tmux hooks

    A shallow embedding of [ueberzug/action.py] and [ueberzug/ueberzug.py].

    Python objects that the code mutates in place (the view's [media]
    dictionary, the window list, the class attribute
    [DrawAction.__redraw_scheduled], the tasks handed to
    [asyncio.ensure_future]) are fields of one explicit [Runtime] record
    that every operation threads through.  Exceptions are values of a
    [result] type.  The collaborators that live outside the two source
    files (the line parser, [conversion.to_bool], the file system, the
    image decoder) are fields of records passed as arguments. *)

From Stdlib Require Import ZArith QArith String Ascii List Bool Lia.
From stdpp Require Import base gmap strings list.

Local Open Scope Z_scope.
Local Open Scope string_scope.

#[local] Set Warnings "-clear-no-such-hyp".

(** ** Python exceptions *)

Module Py.

(** The exception classes that the modelled code and its collaborators
    raise, with the part of Python's class hierarchy that decides which
    [except] clause they reach. *)
Inductive exc : Type :=
| BaseException
| Exception
| ArithmeticError
| OverflowError
| AttributeError
| LookupError
| KeyError
| IndexError
| OSError
| FileNotFoundError
| PermissionError
| UnidentifiedImageError
| RuntimeError
| RecursionError
| TypeError
| ValueError
| JSONDecodeError
| DecompressionBombError.

Definition base (c : exc) : option exc :=
  match c with
  | BaseException => None
  | Exception => Some BaseException
  | ArithmeticError => Some Exception
  | OverflowError => Some ArithmeticError
  | AttributeError => Some Exception
  | LookupError => Some Exception
  | KeyError => Some LookupError
  | IndexError => Some LookupError
  | OSError => Some Exception
  | FileNotFoundError => Some OSError
  | PermissionError => Some OSError
  | UnidentifiedImageError => Some OSError
  | RuntimeError => Some Exception
  | RecursionError => Some RuntimeError
  | TypeError => Some Exception
  | ValueError => Some Exception
  | JSONDecodeError => Some ValueError
  | DecompressionBombError => Some Exception
  end.

Definition exc_eqb (c d : exc) : bool :=
  match c, d with
  | BaseException, BaseException | Exception, Exception
  | ArithmeticError, ArithmeticError | OverflowError, OverflowError
  | AttributeError, AttributeError | LookupError, LookupError
  | KeyError, KeyError | IndexError, IndexError | OSError, OSError
  | FileNotFoundError, FileNotFoundError
  | PermissionError, PermissionError
  | UnidentifiedImageError, UnidentifiedImageError
  | RuntimeError, RuntimeError | RecursionError, RecursionError
  | TypeError, TypeError | ValueError, ValueError
  | JSONDecodeError, JSONDecodeError
  | DecompressionBombError, DecompressionBombError => true
  | _, _ => false
  end.

(** [issubclass c d], walking the chain of bases; the hierarchy above is
    at most four classes deep. *)
Fixpoint issubclass_upto (fuel : nat) (c d : exc) : bool :=
  exc_eqb c d ||
  match fuel with
  | O => false
  | S fuel' =>
      match base c with
      | Some b => issubclass_upto fuel' b d
      | None => false
      end
  end.

Definition issubclass : exc -> exc -> bool := issubclass_upto 4.

(** [isinstance(error, (C1, ..., Cn))] for an exception of class [e]. *)
Definition isinstance (e : exc) (classes : list exc) : bool :=
  existsb (issubclass e) classes.

(** The outcome of a Python call: it returns a value or raises. *)
Inductive result (A : Type) : Type :=
| Return (a : A)
| Raise (e : exc).
Arguments Return {A} a.
Arguments Raise {A} e.

Definition bind {A B} (r : result A) (k : A -> result B) : result B :=
  match r with
  | Return a => k a
  | Raise e => Raise e
  end.

(** Python floats: the finite ones are rationals, and only their order,
    their equality and their integer part are used. *)
Inductive float : Type :=
| Finite (q : Q)
| Inf
| NegInf
| NaN.

(** The values a decoded command line binds to a field name. *)
Inductive value : Type :=
| VNone
| VBool (b : bool)
| VInt (z : Z)
| VFloat (f : float)
| VStr (s : string)
| VContainer.          (* a list or a dict; no modelled code looks inside *)

(** Rounding toward zero, as [int(float)] does. *)
Definition trunc (q : Q) : Z :=
  Z.quot (Qnum q) (Z.pos (Qden q)).

(** The builtin [int(x)].  On a string it follows Python's grammar of
    integer literals, which [int_of_str] stands for ([None]: the
    string is not one). *)
Definition int (int_of_str : string -> option Z) (v : value) : result Z :=
  match v with
  | VNone => Raise TypeError
  | VBool b => Return (if b then 1 else 0)
  | VInt z => Return z
  | VFloat (Finite q) => Return (trunc q)
  | VFloat Inf | VFloat NegInf => Raise OverflowError
  | VFloat NaN => Raise ValueError
  | VStr s =>
      match int_of_str s with
      | Some z => Return z
      | None => Raise ValueError
      end
  | VContainer => Raise TypeError
  end.

End Py.

(** [result] is a monad: [x ← r; k] runs [k] unless [r] raised. *)
#[export] Instance result_ret : MRet Py.result := @Py.Return.
#[export] Instance result_bind : MBind Py.result :=
  fun A B k r => Py.bind r k.
#[export] Instance result_fmap : FMap Py.result :=
  fun A B f r => Py.bind r (fun a => Py.Return (f a)).

(** ** Images (the part of Pillow that [load_image] uses) *)

Module Image.

Definition rgb : Type := Z * Z * Z.
Definition rgba : Type := Z * Z * Z * Z.

(** The colour and the opacity of a pixel with an alpha band. *)
Definition colour (p : rgba) : rgb := let '(r, g, b, _) := p in (r, g, b).
Definition opacity (p : rgba) : Z := let '(_, _, _, a) := p in a.

(** Pixel data by mode, one entry per pixel in row order; a band value
    is an 8-bit integer.  The palette of a [P] image maps an index to
    its colour, transparency included. *)
Inductive raster : Type :=
| L (px : list Z)
| LA (px : list (Z * Z))
| P (palette : Z -> rgba) (px : list Z)
| RGB (px : list rgb)
| RGBA (px : list rgba).

Record t : Type := mk { size : Z * Z; data : raster }.

Definition mode (im : t) : string :=
  match data im with
  | L _ => "L"
  | LA _ => "LA"
  | P _ _ => "P"
  | RGB _ => "RGB"
  | RGBA _ => "RGBA"
  end.

Definition getbands (im : t) : list string :=
  match data im with
  | L _ => ["L"]
  | LA _ => ["L"; "A"]
  | P _ _ => ["P"]
  | RGB _ => ["R"; "G"; "B"]
  | RGBA _ => ["R"; "G"; "B"; "A"]
  end.

(** The pixels as [convert('RGBA')] gives them. *)
Definition rgba_pixels (im : t) : list rgba :=
  match data im with
  | L px => (fun l => (l, l, l, 255)) <$> px
  | LA px => (fun '(l, a) => (l, l, l, a)) <$> px
  | P palette px => palette <$> px
  | RGB px => (fun '(r, g, b) => (r, g, b, 255)) <$> px
  | RGBA px => px
  end.

Definition convert_RGBA (im : t) : t :=
  {| size := size im; data := RGBA (rgba_pixels im) |}.

(** The colour bands an unmasked paste into an RGB image copies: the
    source is converted to RGB, which drops an alpha band unused. *)
Definition rgb_pixels (im : t) : list rgb :=
  colour <$> rgba_pixels im.

(** [image.split()]: one single-band image per band. *)
Definition split (im : t) : list t :=
  let band (px : list Z) := {| size := size im; data := L px |} in
  match data im with
  | L px => [band px]
  | LA px => [band (fst <$> px); band (snd <$> px)]
  | P _ px => [band px]
  | RGB px =>
      [band ((fun '(r, _, _) => r) <$> px);
       band ((fun '(_, g, _) => g) <$> px);
       band ((fun '(_, _, b) => b) <$> px)]
  | RGBA px =>
      [band ((fun '(r, _, _, _) => r) <$> px);
       band ((fun '(_, g, _, _) => g) <$> px);
       band ((fun '(_, _, b, _) => b) <$> px);
       band (opacity <$> px)]
  end.

(** [Image.new("RGB", size, color)]. *)
Definition new_RGB (sz : Z * Z) (color : rgb) : t :=
  {| size := sz; data := RGB (repeat color (Z.to_nat (fst sz * snd sz))) |}.

(** Pillow's 8-bit blend [BLEND8(mask, in1, in2)]: the rounded value of
    [(in1 * (255 - mask) + in2 * mask) / 255]. *)
Definition blend8 (mask in1 in2 : Z) : Z :=
  let tmp := in1 * (255 - mask) + in2 * mask + 128 in
  Z.shiftr (Z.shiftr tmp 8 + tmp) 8.

Definition blend_pixel (mask : Z) (out src : rgb) : rgb :=
  let '(r1, g1, b1) := out in
  let '(r2, g2, b2) := src in
  (blend8 mask r1 r2, blend8 mask g1 g2, blend8 mask b1 b2).

(** Pasting at the origin: the pixels the source covers are replaced,
    the others stay. *)
Fixpoint copy_pixels (out src : list rgb) : list rgb :=
  match out, src with
  | _ :: out', s :: src' => s :: copy_pixels out' src'
  | _, _ => out
  end.

Fixpoint blend_pixels (out src : list rgb) (mask : list Z) : list rgb :=
  match out, src, mask with
  | o :: out', s :: src', m :: mask' =>
      blend_pixel m o s :: blend_pixels out' src' mask'
  | _, _, _ => out
  end.

(** The mask band as a list of levels (a mask image has one band). *)
Definition levels (mask : t) : list Z :=
  (fun '(l, _, _, _) => l) <$> rgba_pixels mask.

(** [canvas.paste(im, mask=mask)] on an RGB canvas. *)
Definition paste (canvas im : t) (mask : option t) : t :=
  match data canvas with
  | RGB out =>
      {| size := size canvas;
         data := RGB match mask with
                     | Some m => blend_pixels out (rgb_pixels im) (levels m)
                     | None => copy_pixels out (rgb_pixels im)
                     end |}
  | _ => canvas
  end.

End Image.

(** [needle in haystack] on Python strings: the substring test. *)
Fixpoint str_in (needle haystack : string) : bool :=
  String.prefix needle haystack ||
  match haystack with
  | EmptyString => false
  | String _ rest => str_in needle rest
  end.

(** ** The view, the windows and the process-wide state *)

(** Modelled from the spec: [ui.OverlayWindow.Placement] is declared in
    [ui.py].  A placement holds the geometry, the source path, the decoded
    image and the modification time of the source; the fields are in the
    order in which [AddImageAction.apply] passes them. *)
Module Placement.
Record t : Type := mk {
  x : Z;
  y : Z;
  width : Z;
  height : Z;
  max_width : Z;
  max_height : Z;
  path : string;
  image : Image.t;
  last_modified : Q
}.
End Placement.

(** Modelled from the spec: [ui.View] is declared in [ui.py].  The view
    is the pane offset and the placements keyed by identifier. *)
Module View.
Record t : Type := mk {
  offset : Z * Z;
  media : gmap string Placement.t
}.
End View.

(** Modelled from the spec: what [xutil.get_parent_window_infos] reports
    for a parent terminal window, its native id and its geometry. *)
Record WindowInfo : Type := mkWindowInfo {
  window_id : Z;
  geometry : Z * Z * Z * Z
}.

(** Modelled from the spec: [ui.OverlayWindow], one overlay surface bound
    to one parent terminal window. *)
Record Window : Type := mkWindow { parent_window : WindowInfo }.

(** One execution of [windows.draw()]: the windows that were painted and
    the view they were painted against. *)
Record Repaint : Type := mkRepaint {
  painted_windows : list Window;
  painted_view : View.t
}.

(** The coroutines the modelled code hands to [asyncio.ensure_future]. *)
Inductive Task : Type :=
| RedrawTask       (* the [redraw()] closure of [schedule_redraw] *)
| ShutdownTask.    (* [shutdown(loop)] *)

Record Runtime : Type := mkRuntime {
  view : View.t;
  windows : list Window;
  redraw_scheduled : bool;       (* DrawAction.__redraw_scheduled *)
  tasks : list Task;             (* scheduled on the loop, not yet run *)
  repaints : list Repaint;       (* the executions of windows.draw(), in order *)
  decoded : list string;         (* the calls of load_image, in order *)
  reports : list Py.exc;         (* the error reports printed, in order *)
  stopped : bool                 (* loop.stop() was called *)
}.

Definition set_media (m : gmap string Placement.t) (rt : Runtime) : Runtime :=
  mkRuntime (View.mk (View.offset (view rt)) m) (windows rt)
    (redraw_scheduled rt) (tasks rt) (repaints rt) (decoded rt) (reports rt)
    (stopped rt).

Definition set_offset (o : Z * Z) (rt : Runtime) : Runtime :=
  mkRuntime (View.mk o (View.media (view rt))) (windows rt)
    (redraw_scheduled rt) (tasks rt) (repaints rt) (decoded rt) (reports rt)
    (stopped rt).

Definition set_windows (ws : list Window) (rt : Runtime) : Runtime :=
  mkRuntime (view rt) ws (redraw_scheduled rt) (tasks rt) (repaints rt)
    (decoded rt) (reports rt) (stopped rt).

Definition set_redraw_scheduled (b : bool) (rt : Runtime) : Runtime :=
  mkRuntime (view rt) (windows rt) b (tasks rt) (repaints rt) (decoded rt)
    (reports rt) (stopped rt).

Definition set_tasks (ts : list Task) (rt : Runtime) : Runtime :=
  mkRuntime (view rt) (windows rt) (redraw_scheduled rt) ts (repaints rt)
    (decoded rt) (reports rt) (stopped rt).

Definition set_stopped (b : bool) (rt : Runtime) : Runtime :=
  mkRuntime (view rt) (windows rt) (redraw_scheduled rt) (tasks rt)
    (repaints rt) (decoded rt) (reports rt) b.

(** Modelled from the spec: [windows.draw()] of [batch.BatchList].  Every
    window of the list repaints itself against the current view; drawing
    does not raise. *)
Definition draw_windows (rt : Runtime) : Runtime :=
  mkRuntime (view rt) (windows rt) (redraw_scheduled rt) (tasks rt)
    (repaints rt ++ [mkRepaint (windows rt) (view rt)]) (decoded rt)
    (reports rt) (stopped rt).

(** Instrumentation: [load_image] was called on [path]. *)
Definition log_decode (path : string) (rt : Runtime) : Runtime :=
  mkRuntime (view rt) (windows rt) (redraw_scheduled rt) (tasks rt)
    (repaints rt) (decoded rt ++ [path]) (reports rt) (stopped rt).

(** Modelled from the spec: [result.ErrorResult(error).print(parser_object)]
    writes one report on the output stream. *)
Definition print_error (e : Py.exc) (rt : Runtime) : Runtime :=
  mkRuntime (view rt) (windows rt) (redraw_scheduled rt) (tasks rt)
    (repaints rt) (decoded rt) (reports rt ++ [e]) (stopped rt).

(** [asyncio.ensure_future(coroutine)]: the task is queued and runs once
    the current callback has given the loop back. *)
Definition ensure_future (t : Task) (rt : Runtime) : Runtime :=
  set_tasks (tasks rt ++ [t]) rt.

(** The file system as one command sees it.  [Image_open] is the image
    [Image.open(path)] gives once its pixel data is read; [load_image]
    does nothing else between opening and reading, so a failure of either
    is the same failure of [load_image]. *)
Record Files : Type := mkFiles {
  getmtime : string -> Py.result Q;          (* os.path.getmtime(path) *)
  Image_open : string -> Py.result Image.t   (* Image.open(path), loaded *)
}.

(** [a < b] on modification times. *)
Definition Qltb (a b : Q) : bool := negb (Qle_bool b a).

(** ** action.py *)

Module Drawable.
Record t : Type := mk {
  draw : bool;
  synchronously_draw : bool
}.
End Drawable.

Module DrawAction.

(** [schedule_redraw(windows)]: the redraw coroutine, or [None] when one
    is already scheduled. *)
Definition schedule_redraw (rt : Runtime) : Runtime * option Task :=
  if negb (redraw_scheduled rt)
  then (set_redraw_scheduled true rt, Some RedrawTask)
  else (rt, None).

(** The body of the coroutine [redraw()]. *)
Definition redraw (rt : Runtime) : Runtime :=
  set_redraw_scheduled false (draw_windows rt).

Definition apply (self : Drawable.t) (rt : Runtime) : Runtime :=
  if Drawable.draw self then
    if Drawable.synchronously_draw self then draw_windows rt
    else
      let '(rt', function) := schedule_redraw rt in
      match function with
      | Some f => ensure_future f rt'
      | None => rt'
      end
  else rt.

End DrawAction.

Module AddImageAction.

Record t : Type := mk {
  drawable : Drawable.t;
  identifier : string;
  x : Z;
  y : Z;
  path : string;
  width : Z;
  max_width : Z;
  height : Z;
  max_height : Z
}.

Definition INDEX_ALPHA_CHANNEL : nat := 3.

Definition white : Image.rgb := (255, 255, 255).

(** The normalisation [load_image] applies to the opened image. *)
Definition remove_opacity (image : Image.t) : Py.result Image.t :=
  let image :=
    if String.eqb (Image.mode image) "P"
    then Image.convert_RGBA image else image in
  if str_in (Image.mode image) "RGBA"
     && (length (Image.getbands image) =? 4)%nat
  then
    match Image.split image !! INDEX_ALPHA_CHANNEL with
    | Some image_alpha =>
        let image_rgb := Image.new_RGB (Image.size image) white in
        Py.Return (Image.paste image_rgb image (Some image_alpha))
    | None => Py.Raise Py.IndexError
    end
  else
    let image_rgb := Image.new_RGB (Image.size image) white in
    Py.Return (Image.paste image_rgb image None).

Definition load_image (files : Files) (path : string) : Py.result Image.t :=
  image ← Image_open files path; remove_opacity image.

(** The [try] block of [apply].  A placement and an image are objects
    without a truth value of their own, so [old_placement and ...] is
    [None] exactly when the view has no placement, and [not image] holds
    exactly then. *)
Definition apply_body (files : Files) (self : t) (rt : Runtime)
  : Runtime * Py.result unit :=
  let old_placement := View.media (view rt) !! identifier self in
  let image := Placement.image <$> old_placement in
  let last_modified := Placement.last_modified <$> old_placement in
  match getmtime files (path self) with
  | Py.Raise e => (rt, Py.Raise e)
  | Py.Return current_last_modified =>
      let place (rt : Runtime) image last_modified :=
        (set_media
           (<[identifier self :=
                Placement.mk (x self) (y self) (width self) (height self)
                  (max_width self) (max_height self) (path self)
                  image last_modified]> (View.media (view rt))) rt,
         Py.Return ()) in
      let reload :=
        let rt := log_decode (path self) rt in
        match load_image files (path self) with
        | Py.Raise e => (rt, Py.Raise e)
        | Py.Return image => place rt image current_last_modified
        end in
      match old_placement, image, last_modified with
      | Some old, Some image, Some last_modified =>
          if Qltb last_modified current_last_modified
             || negb (String.eqb (path self) (Placement.path old))
          then reload
          else place rt image last_modified
      | _, _, _ => reload      (* [not image] *)
      end
  end.

(** [apply]: the [finally] clause runs the draw policy whether or not
    the body raised; the exception, if any, propagates afterwards. *)
Definition apply (files : Files) (self : t) (rt : Runtime)
  : Runtime * Py.result unit :=
  let '(rt', r) := apply_body files self rt in
  (DrawAction.apply (drawable self) rt', r).

End AddImageAction.

Module RemoveImageAction.

Record t : Type := mk {
  drawable : Drawable.t;
  identifier : string
}.

Definition apply_body (self : t) (rt : Runtime) : Runtime * Py.result unit :=
  if bool_decide (identifier self ∈ dom (View.media (view rt)))
  then (set_media (delete (identifier self) (View.media (view rt))) rt,
        Py.Return ())
  else (rt, Py.Return ()).

Definition apply (self : t) (rt : Runtime) : Runtime * Py.result unit :=
  let '(rt', r) := apply_body self rt in
  (DrawAction.apply (drawable self) rt', r).

End RemoveImageAction.

(** An action instance of either class. *)
Inductive Action : Type :=
| Add (a : AddImageAction.t)
| Remove (a : RemoveImageAction.t).

Definition drawable_of (a : Action) : Drawable.t :=
  match a with
  | Add a => AddImageAction.drawable a
  | Remove a => RemoveImageAction.drawable a
  end.

(** [action.apply(parser_object, windows, view)], by dynamic dispatch. *)
Definition apply (files : Files) (a : Action) (rt : Runtime)
  : Runtime * Py.result unit :=
  match a with
  | Add a => AddImageAction.apply files a rt
  | Remove a => RemoveImageAction.apply a rt
  end.

(** ** The event loop *)

(** [shutdown(loop)]: every other task is cancelled, then the loop stops. *)
Definition shutdown (rt : Runtime) : Runtime :=
  set_stopped true (set_tasks [] rt).

Definition run_task (t : Task) (rt : Runtime) : Runtime :=
  match t with
  | RedrawTask => DrawAction.redraw rt
  | ShutdownTask => shutdown rt
  end.

(** One turn of the loop: the oldest scheduled task runs. *)
Definition loop_step (rt : Runtime) : option Runtime :=
  match tasks rt with
  | [] => None
  | t :: ts => Some (run_task t (set_tasks ts rt))
  end.

Fixpoint loop_steps (fuel : nat) (rt : Runtime) : Runtime :=
  match fuel with
  | O => rt
  | S fuel' =>
      match loop_step rt with
      | Some rt' => loop_steps fuel' rt'
      | None => rt
      end
  end.

(** The loop runs until nothing is scheduled; no modelled task schedules
    another, so one step per scheduled task is enough. *)
Definition run_until_idle (rt : Runtime) : Runtime :=
  loop_steps (length (tasks rt)) rt.

(** Several actions applied in a row, the loop not running in between;
    what an application raises is the caller's business. *)
Fixpoint apply_all (cmds : list (Files * Action)) (rt : Runtime) : Runtime :=
  match cmds with
  | [] => rt
  | (files, a) :: cmds' => apply_all cmds' (fst (apply files a rt))
  end.

(** ** ueberzug.py: the command consumer *)

(** What [parser_object.parse] returns: a mapping from field names to
    values, or some other object. *)
Inductive Parsed : Type :=
| Mapping (d : gmap string Py.value)
| NotMapping (v : Py.value).

(** The collaborators of command decoding that are not part of the two
    source files. *)
Record Decoding : Type := mkDecoding {
  parse : string -> Py.result Parsed;       (* parser_object.parse(line) *)
  to_bool : Py.value -> Py.result bool;     (* conversion.to_bool(value) *)
  int_of_str : string -> option Z           (* int(s) on a string *)
}.

(** [action.Command]: the enumeration of the action classes by name. *)
Inductive Command : Type := ADD | REMOVE.

Definition get_action_name (c : Command) : string :=
  match c with
  | ADD => "add"
  | REMOVE => "remove"
  end.

(** [Command(value)]: the member with that value, or [ValueError]. *)
Definition Command_of (v : Py.value) : Py.result Command :=
  match v with
  | Py.VStr s =>
      if String.eqb s (get_action_name ADD) then Py.Return ADD
      else if String.eqb s (get_action_name REMOVE) then Py.Return REMOVE
      else Py.Raise Py.ValueError
  | _ => Py.Raise Py.ValueError
  end.

(** [data[key]]. *)
Definition getitem (data : Parsed) (key : string) : Py.result Py.value :=
  match data with
  | Mapping d =>
      match d !! key with
      | Some v => Py.Return v
      | None => Py.Raise Py.KeyError
      end
  | NotMapping _ => Py.Raise Py.TypeError
  end.

(** Binding the items of [data] to the keyword-only parameters of a
    generated [__init__]: an unknown or a missing name is a [TypeError]. *)
Definition bind_keywords (allowed required : list string)
    (d : gmap string Py.value) : Py.result unit :=
  if bool_decide (dom d ⊆ list_to_set allowed)
     && bool_decide (list_to_set (C := gset string) required ⊆ dom d)
  then Py.Return ()
  else Py.Raise Py.TypeError.

(** An attribute with a converter, given or defaulted. *)
Definition converted {A} (converter : Py.value -> Py.result A)
    (d : gmap string Py.value) (name : string) (otherwise : Py.value)
  : Py.result A :=
  converter (default otherwise (d !! name)).

(** A mandatory attribute with a converter. *)
Definition mandatory {A} (converter : Py.value -> Py.result A)
    (d : gmap string Py.value) (name : string) : Py.result A :=
  match d !! name with
  | Some v => converter v
  | None => Py.Raise Py.TypeError
  end.

(** An attribute declared [type=str] without a converter.  The actions
    of the model carry strings there: a value of another type, which
    Python would store as it is, lies outside the model and is refused. *)
Definition str_attribute (d : gmap string Py.value) (name : string)
  : Py.result string :=
  match d !! name with
  | Some (Py.VStr s) => Py.Return s
  | _ => Py.Raise Py.TypeError
  end.

Definition Drawable_init (dec : Decoding) (d : gmap string Py.value)
  : Py.result Drawable.t :=
  draw ← converted (to_bool dec) d "draw" (Py.VBool true);
  synchronously_draw ←
    converted (to_bool dec) d "synchronously_draw" (Py.VBool false);
  mret (Drawable.mk draw synchronously_draw).

(** The generated [AddImageAction.__init__], called with the items of
    [data] as keywords: the attributes in definition order. *)
Definition AddImageAction_init (dec : Decoding) (d : gmap string Py.value)
  : Py.result AddImageAction.t :=
  let int := Py.int (int_of_str dec) in
  _ ← bind_keywords
        ["action"; "draw"; "synchronously_draw"; "identifier"; "x"; "y";
         "path"; "width"; "max_width"; "height"; "max_height"]
        ["identifier"; "x"; "y"; "path"] d;
  drawable ← Drawable_init dec d;
  identifier ← str_attribute d "identifier";
  x ← mandatory int d "x";
  y ← mandatory int d "y";
  path ← str_attribute d "path";
  width ← converted int d "width" (Py.VInt 0);
  max_width ← converted int d "max_width" (Py.VInt 0);
  height ← converted int d "height" (Py.VInt 0);
  max_height ← converted int d "max_height" (Py.VInt 0);
  mret (AddImageAction.mk drawable identifier x y path
          width max_width height max_height).

(** The generated [RemoveImageAction.__init__], called the same way. *)
Definition RemoveImageAction_init (dec : Decoding) (d : gmap string Py.value)
  : Py.result RemoveImageAction.t :=
  _ ← bind_keywords
        ["action"; "draw"; "synchronously_draw"; "identifier"]
        ["identifier"] d;
  drawable ← Drawable_init dec d;
  identifier ← str_attribute d "identifier";
  mret (RemoveImageAction.mk drawable identifier).

(** [command.action_class], called with the items of [data] as keywords. *)
Definition action_class (dec : Decoding) (command : Command) (data : Parsed)
  : Py.result Action :=
  match data with
  | Mapping d =>
      match command with
      | ADD => Add <$> AddImageAction_init dec d
      | REMOVE => Remove <$> RemoveImageAction_init dec d
      end
  | NotMapping _ => Py.Raise Py.TypeError
  end.

(** [line[:-1]]: the line without its last character. *)
Fixpoint but_last (s : string) : string :=
  match s with
  | EmptyString => EmptyString
  | String c EmptyString => EmptyString
  | String c rest => String c (but_last rest)
  end.

(** The statements of the inner [try] block, for one line. *)
Definition decode (dec : Decoding) (line : string) : Py.result Action :=
  data ← parse dec (but_last line);
  name ← getitem data "action";
  command ← Command_of name;
  action_class dec command data.

Definition execute (dec : Decoding) (files : Files) (line : string)
    (rt : Runtime) : Runtime * Py.result unit :=
  match decode dec line with
  | Py.Return a => apply files a rt
  | Py.Raise e => (rt, Py.Raise e)
  end.

(** The classes named by the [except] clause of [main_commands]. *)
Definition handled : list Py.exc :=
  [Py.OSError; Py.KeyError; Py.ValueError; Py.TypeError].

(** The [async for] loop over the lines that [files.LineReader] yields,
    each with the file system as it is when the line is processed.  The loop ends when
    the reader is exhausted, at an empty line ([break]), or with an
    exception that no [except] clause handles. *)
Fixpoint consume (dec : Decoding) (input : list (string * Files))
    (rt : Runtime) : Runtime * Py.result unit :=
  match input with
  | [] => (rt, Py.Return ())
  | (line, files) :: rest =>
      if String.eqb line EmptyString then (rt, Py.Return ())
      else
        let '(rt', r) := execute dec files line rt in
        match r with
        | Py.Return _ => consume dec rest rt'
        | Py.Raise error =>
            if Py.isinstance error handled
            then consume dec rest (print_error error rt')
            else (rt', Py.Raise error)
        end
  end.

(** [main_commands]: the [finally] clause schedules the shutdown routine
    however the loop ended. *)
Definition main_commands (dec : Decoding) (input : list (string * Files))
    (rt : Runtime) : Runtime * Py.result unit :=
  let '(rt', r) := consume dec input rt in
  (ensure_future ShutdownTask rt', r).

(** ** ueberzug.py: re-enumerating the terminal windows *)

#[export] Instance WindowInfo_eq_dec : EqDecision WindowInfo.
Proof. solve_decision. Defined.

#[export] Instance Window_eq_dec : EqDecision Window.
Proof. solve_decision. Defined.

(** The dictionary comprehension [{key(v): v for v in l}]: a later item
    replaces an earlier one under the same key. *)
Definition dict_by {V} (key : V -> Z) (l : list V) : gmap Z V :=
  foldl (fun m v => <[key v := v]> m) ∅ l.

(** Modelled from the spec: [window_factory.create] of
    [ui.OverlayWindow.Factory] makes one overlay window per parent given. *)
Definition create (infos : list WindowInfo) : list Window :=
  mkWindow <$> infos.

(** Removing one item from a list, as [list.remove(item)] does: the
    first equal item goes. *)
Fixpoint remove_first (w : Window) (l : list Window) : list Window :=
  match l with
  | [] => []
  | w' :: l' => if decide (w = w') then l' else w' :: remove_first w l'
  end.

(** Modelled from the spec: [windows -= items] of [batch.BatchList]
    destroys and removes each of the items; [windows += items] appends. *)
Definition isub (ws items : list Window) : list Window :=
  foldl (fun acc w => remove_first w acc) ws items.

(** [query_windows], given what [xutil.get_parent_window_infos()] and
    [tmux_util.get_offset()] return.  A set is iterated in the order of
    [elements]; [get] is applied to keys of the dictionary itself, so it
    finds every one of them. *)
Definition query_windows (parent_window_infos : list WindowInfo)
    (offset : Z * Z) (rt : Runtime) : Runtime :=
  let rt := set_offset offset rt in
  let map_parent_window_id_info := dict_by window_id parent_window_infos in
  let parent_window_ids : gset Z := dom map_parent_window_id_info in
  let map_current_windows :=
    dict_by (fun window => window_id (parent_window window)) (windows rt) in
  let current_window_ids : gset Z := dom map_current_windows in
  let diff_window_ids :=
    (parent_window_ids ∖ current_window_ids)
    ∪ (current_window_ids ∖ parent_window_ids) in
  let added_window_ids := diff_window_ids ∩ parent_window_ids in
  let removed_window_ids := diff_window_ids ∩ current_window_ids in
  let draw :=
    negb (bool_decide (added_window_ids = ∅))
    || negb (bool_decide (removed_window_ids = ∅)) in
  let rt :=
    if negb (bool_decide (added_window_ids = ∅))
    then set_windows
           (windows rt ++
            create (omap (fun wid => map_parent_window_id_info !! wid)
                      (elements added_window_ids))) rt
    else rt in
  let rt :=
    if negb (bool_decide (removed_window_ids = ∅))
    then set_windows
           (isub (windows rt)
              (omap (fun wid => map_current_windows !! wid)
                 (elements removed_window_ids))) rt
    else rt in
  if draw then draw_windows rt else rt.

(** ** ueberzug.py: the tmux hooks shared by the processes of a session *)

Module Tmux.

(** Modelled from the spec: the registry file of the session, read and
    written under [files.lock], and the shell command that tmux holds for
    each event kind through [tmux_util]. *)
Record t : Type := mk {
  lock_file : string;
  hooks : gmap string string
}.

(** [tmux_util.register_hook(event, command)]. *)
Definition register_hook (event command : string) (st : t) : t :=
  mk (lock_file st) (<[event := command]> (hooks st)).

(** [tmux_util.unregister_hook(event)]. *)
Definition unregister_hook (event : string) (st : t) : t :=
  mk (lock_file st) (delete event (hooks st)).

(** [seek(0); truncate(); write(content); flush()]. *)
Definition overwrite (content : string) (st : t) : t :=
  mk content (hooks st).

End Tmux.

(** [str.isspace] on one character, by code point. *)
Definition isspace (c : ascii) : bool :=
  let n := N_of_ascii c in
  ((9 <=? n) && (n <=? 13) || (28 <=? n) && (n <=? 32)
   || (n =? 133) || (n =? 160))%N.

(** [s.split()]: the maximal runs of characters that are not white
    space. *)
Fixpoint split_from (word s : string) : list string :=
  match s with
  | EmptyString =>
      match word with EmptyString => [] | _ => [word] end
  | String c rest =>
      if isspace c then
        match word with
        | EmptyString => split_from EmptyString rest
        | _ => word :: split_from EmptyString rest
        end
      else split_from (word +:+ String c EmptyString) rest
  end.

Definition split (s : string) : list string := split_from EmptyString s.

(** [sep.join(words)]. *)
Fixpoint join (sep : string) (words : list string) : string :=
  match words with
  | [] => EmptyString
  | [w] => w
  | w :: ws => w +:+ sep +:+ join sep ws
  end.

Definition events : list string :=
  ["client-session-changed"; "session-window-changed"; "pane-mode-changed"].

Definition command_template : string := "kill -USR1 ".

(** The pids the lock file records: [set(lock_file.read().split())]. *)
Definition recorded_pids (st : Tmux.t) : gset string :=
  list_to_set (split (Tmux.lock_file st)).

(** [update_hooks(pid_file, pids)]; the set is joined in the order of
    [elements]. *)
Definition update_hooks (pids : gset string) (st : Tmux.t) : Tmux.t :=
  let pids := join " " (elements pids) in
  let command := command_template +:+ pids in
  let st := Tmux.overwrite pids st in
  foldl (fun st event =>
           if negb (String.eqb pids EmptyString)
           then Tmux.register_hook event command st
           else Tmux.unregister_hook event st)
        st events.

(** [remove_hooks()], for the process whose pid prints as [own_pid]. *)
Definition remove_hooks (own_pid : string) (st : Tmux.t) : Tmux.t :=
  let pids := recorded_pids st in
  let pids := pids ∖ {[own_pid]} in
  update_hooks pids st.

(** The locked block at the end of [setup_tmux_hooks()]. *)
Definition setup_tmux_hooks (own_pid : string) (st : Tmux.t) : Tmux.t :=
  let pids := recorded_pids st in
  let pids := pids ∪ {[own_pid]} in
  update_hooks pids st.

(** ** Vocabulary of the statements *)

(** The placement [AddImageAction.apply] builds from the action's
    geometry, an image and a modification time. *)
Definition placed (self : AddImageAction.t) (image : Image.t)
    (last_modified : Q) : Placement.t :=
  Placement.mk (AddImageAction.x self) (AddImageAction.y self)
    (AddImageAction.width self) (AddImageAction.height self)
    (AddImageAction.max_width self) (AddImageAction.max_height self)
    (AddImageAction.path self) image last_modified.

(** The view holds no placement for the action's identifier, or one from
    another path, or one that is older than the source is now. *)
Definition stale (self : AddImageAction.t) (rt : Runtime) (mtime : Q) : Prop :=
  let m := View.media (view rt) in
  let id := AddImageAction.identifier self in
  m !! id = None \/
  exists old, m !! id = Some old /\
    (Placement.path old <> AddImageAction.path self
     \/ (Placement.last_modified old < mtime)%Q).

(** [load_image] is called once more, on the action's path. *)
Definition reloads (files : Files) (self : AddImageAction.t) (rt : Runtime)
  : Prop :=
  decoded (fst (AddImageAction.apply files self rt)) =
  (decoded rt ++ [AddImageAction.path self])%list.

(** The draw policy of the action asks for a deferred repaint. *)
Definition deferred (a : Action) : Prop :=
  Drawable.draw (drawable_of a) = true
  /\ Drawable.synchronously_draw (drawable_of a) = false.

(** The flag and the loop agree: a redraw task is scheduled exactly when
    the flag is set, and nothing else is. *)
Definition coherent (rt : Runtime) : Prop :=
  tasks rt = if redraw_scheduled rt then [RedrawTask] else [].

(** An image goes through the masked paste of [load_image]: it is in mode
    RGBA when the mode is tested, that is, it was opened in mode RGBA or
    in mode P. *)
Definition composited (im : Image.t) : bool :=
  match Image.data im with
  | Image.RGBA _ | Image.P _ _ => true
  | _ => false
  end.

(** The number of pixels of an image of that size. *)
Definition area (im : Image.t) : nat :=
  Z.to_nat (fst (Image.size im) * snd (Image.size im)).

(** Every fully transparent pixel of [im] is white in [out]. *)
Definition transparency_whitened (im out : Image.t) : Prop :=
  forall i p,
    (i < area im)%nat ->
    Image.rgba_pixels im !! i = Some p ->
    Image.opacity p = 0 ->
    Image.rgb_pixels out !! i = Some AddImageAction.white.

(** The ids of the terminal windows reported, and of those tracked. *)
Definition parent_id (w : Window) : Z := window_id (parent_window w).

Definition reported_ids (infos : list WindowInfo) : gset Z :=
  list_to_set (window_id <$> infos).

Definition tracked_ids (ws : list Window) : gset Z :=
  list_to_set (parent_id <$> ws).

(** A string without white space, and a word: such a string that is not
    empty. *)
Fixpoint solid (s : string) : bool :=
  match s with
  | EmptyString => true
  | String c rest => negb (isspace c) && solid rest
  end.

Definition word (s : string) : Prop := s <> EmptyString /\ solid s = true.

(** The collaborators raise nothing but what the consumer handles. *)
Definition tame_decoding (dec : Decoding) : Prop :=
  (forall line e, parse dec line = Py.Raise e ->
                  Py.isinstance e handled = true)
  /\ (forall v e, to_bool dec v = Py.Raise e ->
                   Py.isinstance e handled = true).



(** ** A small session, used to instantiate the statements *)

Definition example_image : Image.t :=
  Image.mk (1, 1) (Image.RGB [(10, 20, 30)]).

Definition example_placement : Placement.t :=
  Placement.mk 1 2 0 0 0 0 "/tmp/a.png" example_image (10 # 1).

Definition example_view : View.t :=
  View.mk (0, 0) {[ "preview" := example_placement ]}.

Definition example_runtime : Runtime :=
  mkRuntime example_view [] false [] [] [] [] false.

(** A file system in which every path was modified at [mtime] and holds
    one half-transparent pixel. *)
Definition example_files (mtime : Q) : Files :=
  mkFiles (fun _ => Py.Return mtime)
    (fun _ => Py.Return (Image.mk (1, 1) (Image.RGBA [(1, 2, 3, 128)]))).

(** A file system without any file. *)
Definition no_files : Files :=
  mkFiles (fun _ => Py.Raise Py.FileNotFoundError)
    (fun _ => Py.Raise Py.FileNotFoundError).

Definition deferred_draw : Drawable.t := Drawable.mk true false.

Definition example_add (identifier path : string) : AddImageAction.t :=
  AddImageAction.mk deferred_draw identifier 3 4 path 0 0 0 0.

Definition example_remove (identifier : string) : RemoveImageAction.t :=
  RemoveImageAction.mk deferred_draw identifier.

Definition example_commands : list (Files * Action) :=
  [(example_files (10 # 1), Add (example_add "first" "/tmp/a.png"));
   (no_files, Add (example_add "second" "/missing.png"));
   (no_files, Remove (example_remove "preview"))].

(** A grey image with an alpha band: one black, fully transparent pixel. *)
Definition grey_alpha_image : Image.t :=
  Image.mk (1, 1) (Image.LA [(0, 0)]).

(** A file system whose every path holds [im]. *)
Definition files_holding (im : Image.t) : Files :=
  mkFiles (fun _ => Py.Return (0 # 1)) (fun _ => Py.Return im).

(** A colour image with an alpha band: one fully transparent pixel and
    one opaque pixel. *)
Definition colour_alpha_image : Image.t :=
  Image.mk (2, 1) (Image.RGBA [(1, 2, 3, 0); (4, 5, 6, 255)]).

(** Three command lines in the JSON encoding, and a decoder that reads
    them as [json.loads] does and rejects every other line. *)
Definition dq : string := String "034"%char EmptyString.
Definition newline : string := String "010"%char EmptyString.

Definition json_item (name value : string) : string :=
  dq +:+ name +:+ dq +:+ ": " +:+ value.

Definition json_str (s : string) : string := dq +:+ s +:+ dq.

Definition json_object (items : list string) : string :=
  "{" +:+ join ", " items +:+ "}".

Definition add_line : string :=
  json_object [json_item "action" (json_str "add");
               json_item "identifier" (json_str "a");
               json_item "x" "0"; json_item "y" "0";
               json_item "path" (json_str "/missing.png")] +:+ newline.

Definition overflow_line : string :=
  json_object [json_item "action" (json_str "add");
               json_item "identifier" (json_str "a");
               json_item "x" "1e999"; json_item "y" "0";
               json_item "path" (json_str "/tmp/a.png")] +:+ newline.

Definition remove_line : string :=
  json_object [json_item "action" (json_str "remove");
               json_item "identifier" (json_str "preview")] +:+ newline.

Definition add_data : gmap string Py.value :=
  list_to_map [("action", Py.VStr "add"); ("identifier", Py.VStr "a");
               ("x", Py.VInt 0); ("y", Py.VInt 0);
               ("path", Py.VStr "/missing.png")].

(** [1e999] is beyond the range of a float: [json.loads] reads it as
    infinity. *)
Definition overflow_data : gmap string Py.value :=
  list_to_map [("action", Py.VStr "add"); ("identifier", Py.VStr "a");
               ("x", Py.VFloat Py.Inf); ("y", Py.VInt 0);
               ("path", Py.VStr "/tmp/a.png")].

Definition remove_data : gmap string Py.value :=
  list_to_map [("action", Py.VStr "remove"); ("identifier", Py.VStr "preview")].

Definition example_parse (line : string) : Py.result Parsed :=
  if String.eqb line (but_last add_line) then Py.Return (Mapping add_data)
  else if String.eqb line (but_last overflow_line)
       then Py.Return (Mapping overflow_data)
  else if String.eqb line (but_last remove_line)
       then Py.Return (Mapping remove_data)
  else Py.Raise Py.JSONDecodeError.

Definition example_decoding : Decoding :=
  mkDecoding example_parse
    (fun v => match v with
              | Py.VBool b => Py.Return b
              | _ => Py.Raise Py.ValueError
              end)
    (fun _ => None).

Definition terminal (id : Z) : WindowInfo := mkWindowInfo id (0, 0, 80, 24).

(** Windows 1 and 2 are tracked. *)
Definition tracking_runtime : Runtime :=
  mkRuntime example_view [mkWindow (terminal 1); mkWindow (terminal 2)]
    false [] [] [] [] false.

(** Two processes of one session, and the last one of a session. *)
Definition shared_session : Tmux.t :=
  Tmux.mk "4711 4712"
    (list_to_map ((fun event => (event, "kill -USR1 4711 4712")) <$> events)).

Definition own_session : Tmux.t :=
  Tmux.mk "4711"
    (list_to_map ((fun event => (event, "kill -USR1 4711")) <$> events)).

(** ** Vocabulary of the further statements *)

(** The identifier an action is about. *)
Definition identifier_of (a : Action) : string :=
  match a with
  | Add a => AddImageAction.identifier a
  | Remove a => RemoveImageAction.identifier a
  end.

(** An action draws at once, or not at all. *)
Definition synchronous (a : Action) : Prop :=
  Drawable.draw (drawable_of a) = true
  /\ Drawable.synchronously_draw (drawable_of a) = true.

Definition silent (a : Action) : Prop :=
  Drawable.draw (drawable_of a) = false.

Definition synchronous_draw : Drawable.t := Drawable.mk true true.
Definition no_draw : Drawable.t := Drawable.mk false false.

(** A view with two placements, and actions that draw at once or not at
    all. *)
Definition second_placement : Placement.t :=
  Placement.mk 5 6 0 0 0 0 "/tmp/b.png" example_image (20 # 1).

Definition two_placements : Runtime :=
  mkRuntime
    (View.mk (3, 4)
       (<["other" := second_placement]> {[ "preview" := example_placement ]}))
    [mkWindow (mkWindowInfo 7 (0, 0, 80, 24))] false [] [] [] [] false.

Definition add_now (identifier path : string) : AddImageAction.t :=
  AddImageAction.mk synchronous_draw identifier 3 4 path 0 0 0 0.

Definition remove_silently (identifier : string) : RemoveImageAction.t :=
  RemoveImageAction.mk no_draw identifier.

(** Band values that fit in eight bits. *)
Definition eight_bit (v : Z) : Prop := 0 <= v <= 255.

Definition eight_bit_rgb (p : Image.rgb) : Prop :=
  let '(r, g, b) := p in eight_bit r /\ eight_bit g /\ eight_bit b.

Definition eight_bit_rgba (p : Image.rgba) : Prop :=
  eight_bit_rgb (Image.colour p) /\ eight_bit (Image.opacity p).

(** An image with as many pixels as its size says. *)
Definition full (im : Image.t) : Prop :=
  length (Image.rgba_pixels im) = area im.

(** The attributes of [AddImageAction] that [int] converts. *)
Definition int_attributes : list string :=
  ["x"; "y"; "width"; "max_width"; "height"; "max_height"].








(** What the processes of one session do to the registry, one after the
    other under the lock: a process starts ([setup_tmux_hooks]) or exits
    ([remove_hooks], registered with [atexit]). *)
Inductive HookEvent : Type :=
| Starts (pid : string)
| Exits (pid : string).

Definition hook_event (st : Tmux.t) (ev : HookEvent) : Tmux.t :=
  match ev with
  | Starts pid => setup_tmux_hooks pid st
  | Exits pid => remove_hooks pid st
  end.

Definition hook_events (evs : list HookEvent) (st : Tmux.t) : Tmux.t :=
  foldl hook_event st evs.

(** The processes that are running after the event, given those before. *)
Definition running (pids : gset string) (ev : HookEvent) : gset string :=
  match ev with
  | Starts pid => pids ∪ {[pid]}
  | Exits pid => pids ∖ {[pid]}
  end.

(** The pid of every process that starts is a word. *)
Definition proper (ev : HookEvent) : Prop :=
  match ev with
  | Starts pid => word pid
  | Exits _ => True
  end.

(** The hook of every watched event signals [pids], or no watched event
    has a hook when there is no pid. *)
Definition hooks_signal (pids : gset string) (st : Tmux.t) : Prop :=
  forall event, event ∈ events ->
    Tmux.hooks st !! event
    = if decide (pids = ∅) then None
      else Some (command_template +:+ join " " (elements pids)).

Definition empty_session : Tmux.t := Tmux.mk EmptyString ∅.

(** * Properties *)

(** ** The draw policy and the scheduler *)

(** The draw policy has four outcomes; it touches the flag, the tasks and
    the repaints, and nothing else. *)
Ltac policy_cases d rt :=
  unfold DrawAction.apply, DrawAction.schedule_redraw;
  destruct (Drawable.draw d), (Drawable.synchronously_draw d),
    (redraw_scheduled rt); reflexivity.

Lemma DrawAction_apply_view d rt :
  view (DrawAction.apply d rt) = view rt.
Proof. policy_cases d rt. Qed.

Lemma DrawAction_apply_windows d rt :
  windows (DrawAction.apply d rt) = windows rt.
Proof. policy_cases d rt. Qed.

Lemma DrawAction_apply_decoded d rt :
  decoded (DrawAction.apply d rt) = decoded rt.
Proof. policy_cases d rt. Qed.


(** ** Adding and removing placements *)

Lemma Qltb_lt a b : Qltb a b = true <-> (a < b)%Q.
Proof.
  unfold Qltb. rewrite negb_true_iff, <- not_true_iff_false, Qle_bool_iff.
  split; [apply Qnot_le_lt | apply Qlt_not_le].
Qed.

Lemma Qltb_ge a b : Qltb a b = false <-> (b <= a)%Q.
Proof.
  unfold Qltb. rewrite negb_false_iff. apply Qle_bool_iff.
Qed.

Section Adding.

Variable files : Files.
Variable self : AddImageAction.t.
Variable rt : Runtime.

(** The stored placement comes from the same path and is at least as
    recent as the source: nothing is decoded, and its image and its
    modification time are stored again. *)
Lemma apply_body_hit old mtime :
  View.media (view rt) !! AddImageAction.identifier self = Some old ->
  getmtime files (AddImageAction.path self) = Py.Return mtime ->
  Placement.path old = AddImageAction.path self ->
  (mtime <= Placement.last_modified old)%Q ->
  AddImageAction.apply_body files self rt =
    (set_media
       (<[AddImageAction.identifier self :=
            placed self (Placement.image old) (Placement.last_modified old)]>
          (View.media (view rt))) rt,
     Py.Return ()).
Proof.
  intros Hold Hm Hp Hle. unfold AddImageAction.apply_body.
  rewrite Hold, Hm. simpl.
  apply Qltb_ge in Hle. rewrite Hle, Hp, String.eqb_refl. reflexivity.
Qed.

(** A stale entry: the image is loaded, and stored if loading succeeds. *)
Lemma apply_body_miss mtime :
  getmtime files (AddImageAction.path self) = Py.Return mtime ->
  stale self rt mtime ->
  AddImageAction.apply_body files self rt =
    match AddImageAction.load_image files (AddImageAction.path self) with
    | Py.Return image =>
        (set_media
           (<[AddImageAction.identifier self := placed self image mtime]>
              (View.media (view rt)))
           (log_decode (AddImageAction.path self) rt),
         Py.Return ())
    | Py.Raise e => (log_decode (AddImageAction.path self) rt, Py.Raise e)
    end.
Proof.
  intros Hm Hs. unfold AddImageAction.apply_body. rewrite Hm.
  destruct Hs as [Hnone | (old & Hold & Hwhy)].
  - rewrite Hnone. reflexivity.
  - rewrite Hold. simpl.
    assert (Qltb (Placement.last_modified old) mtime
            || negb (String.eqb (AddImageAction.path self)
                       (Placement.path old)) = true) as ->.
    { destruct Hwhy as [Hp | Hlt].
      - apply orb_true_iff. right. apply negb_true_iff.
        apply String.eqb_neq. congruence.
      - apply orb_true_iff. left. by apply Qltb_lt. }
    reflexivity.
Qed.

(** What the body raises, the action raises, after the draw policy. *)
Lemma apply_after_body rt' r :
  AddImageAction.apply_body files self rt = (rt', r) ->
  AddImageAction.apply files self rt =
    (DrawAction.apply (AddImageAction.drawable self) rt', r).
Proof. intros H. unfold AddImageAction.apply. by rewrite H. Qed.

(** A body that raises has not touched the view. *)
Lemma apply_body_raise rt' e :
  AddImageAction.apply_body files self rt = (rt', Py.Raise e) ->
  rt' = rt \/ rt' = log_decode (AddImageAction.path self) rt.
Proof.
  unfold AddImageAction.apply_body.
  destruct (getmtime files (AddImageAction.path self)) as [mtime | e'].
  2: { intros [= <- _]. by left. }
  destruct (View.media (view rt) !! AddImageAction.identifier self)
    as [old |]; simpl.
  - destruct (_ || _).
    + destruct (AddImageAction.load_image _ _); intros [= <-]; by right.
    + intros [= _].
  - destruct (AddImageAction.load_image _ _); intros [= <-]; by right.
Qed.

End Adding.

(** C2.  An [AddImageAction] applied to a view that holds a placement
    under the same identifier, from the same path, whose source has the
    recorded modification time, decodes nothing and stores the cached image
    again.  When the view holds no placement under the identifier, or one
    from another path, or one older than the source is now, [load_image] is
    called, and the placement built from the loaded image and the current
    modification time is stored under the identifier. *)
Theorem add_image_cache files self rt mtime :
  getmtime files (AddImageAction.path self) = Py.Return mtime ->
  let m := View.media (view rt) in
  let id := AddImageAction.identifier self in
  let out := AddImageAction.apply files self rt in
  (forall old,
      m !! id = Some old ->
      Placement.path old = AddImageAction.path self ->
      (Placement.last_modified old == mtime)%Q ->
      snd out = Py.Return ()
      /\ decoded (fst out) = decoded rt
      /\ View.media (view (fst out)) =
           <[id := placed self (Placement.image old)
                     (Placement.last_modified old)]> m)
  /\ (stale self rt mtime ->
      decoded (fst out) = (decoded rt ++ [AddImageAction.path self])%list
      /\ forall image,
          AddImageAction.load_image files (AddImageAction.path self)
            = Py.Return image ->
          snd out = Py.Return ()
          /\ View.media (view (fst out)) = <[id := placed self image mtime]> m).
Proof.
  intros Hm m id out. split.
  - intros old Hold Hp Heq.
    assert (mtime <= Placement.last_modified old)%Q as Hle
      by (rewrite Heq; apply Qle_refl).
    subst out.
    rewrite (apply_after_body _ _ _ _ _
               (apply_body_hit files self rt old mtime Hold Hm Hp Hle)).
    simpl. by rewrite DrawAction_apply_decoded, DrawAction_apply_view.
  - intros Hs. subst out.
    pose proof (apply_body_miss files self rt mtime Hm Hs) as Hb.
    destruct (AddImageAction.load_image files (AddImageAction.path self))
      as [image | e];
      rewrite (apply_after_body _ _ _ _ _ Hb); simpl;
      rewrite DrawAction_apply_decoded, ?DrawAction_apply_view;
      (split; [reflexivity |]).
    + by intros ? [= <-].
    + intros ? [=].
Qed.

Lemma add_image_cache_witness :
  (let out := AddImageAction.apply (example_files (10 # 1))
                (example_add "preview" "/tmp/a.png") example_runtime in
   snd out = Py.Return () /\ decoded (fst out) = []
   /\ View.media (view (fst out)) !! "preview"
      = Some (placed (example_add "preview" "/tmp/a.png") example_image (10 # 1)))
  /\ (let out := AddImageAction.apply (example_files (11 # 1))
                   (example_add "preview" "/tmp/a.png") example_runtime in
      decoded (fst out) = ["/tmp/a.png"]).
Proof.
  split.
  - destruct (add_image_cache (example_files (10 # 1))
                (example_add "preview" "/tmp/a.png") example_runtime (10 # 1)
                eq_refl) as [Hhit _].
    destruct (Hhit example_placement) as (H1 & H2 & H3);
      [reflexivity | reflexivity | reflexivity |].
    cbv zeta. rewrite H1, H2, H3. split; [reflexivity |].
    split; [reflexivity |]. apply lookup_insert_eq.
  - destruct (add_image_cache (example_files (11 # 1))
                (example_add "preview" "/tmp/a.png") example_runtime (11 # 1)
                eq_refl) as [_ Hmiss].
    destruct Hmiss as [H _]; [| exact H].
    right. exists example_placement.
    split; [reflexivity | right; reflexivity].
Defined.

(** C4, as the code has it.  When the source's modification time lies
    before the recorded one, an [AddImageAction] for the same identifier
    and path decodes nothing: the cached image is stored again, together
    with the recorded modification time. *)
Theorem backward_mtime_reuses files self rt old mtime :
  View.media (view rt) !! AddImageAction.identifier self = Some old ->
  Placement.path old = AddImageAction.path self ->
  getmtime files (AddImageAction.path self) = Py.Return mtime ->
  (mtime < Placement.last_modified old)%Q ->
  let out := AddImageAction.apply files self rt in
  snd out = Py.Return ()
  /\ decoded (fst out) = decoded rt
  /\ View.media (view (fst out)) =
       <[AddImageAction.identifier self :=
           placed self (Placement.image old) (Placement.last_modified old)]>
         (View.media (view rt)).
Proof.
  intros Hold Hp Hm Hlt out. subst out.
  rewrite (apply_after_body _ _ _ _ _
             (apply_body_hit files self rt old mtime Hold Hm Hp
                (Qlt_le_weak _ _ Hlt))).
  simpl. by rewrite DrawAction_apply_decoded, DrawAction_apply_view.
Qed.

Lemma backward_mtime_reuses_witness :
  (5 # 1 < Placement.last_modified example_placement)%Q
  /\ decoded (fst (AddImageAction.apply (example_files (5 # 1))
                     (example_add "preview" "/tmp/a.png") example_runtime))
     = decoded example_runtime.
Proof.
  split; [reflexivity |].
  apply (backward_mtime_reuses (example_files (5 # 1))
           (example_add "preview" "/tmp/a.png") example_runtime
           example_placement (5 # 1));
    reflexivity.
Defined.

(** C4, as the claim has it, fails: the placement was recorded at time 10,
    the source now reports time 5, and [load_image] is not called. *)
Lemma backward_mtime_counterexample :
  let files := example_files (5 # 1) in
  let self := example_add "preview" "/tmp/a.png" in
  View.media (view example_runtime) !! AddImageAction.identifier self
    = Some example_placement
  /\ Placement.path example_placement = AddImageAction.path self
  /\ getmtime files (AddImageAction.path self) = Py.Return (5 # 1)
  /\ (5 # 1 < Placement.last_modified example_placement)%Q
  /\ ~ reloads files self example_runtime.
Proof.
  cbv zeta. repeat (split; [reflexivity |]).
  unfold reloads. vm_compute. discriminate.
Qed.

(** C10.  When [AddImageAction.apply] raises, the view's placements are
    what they were, and the state it leaves is the one the draw policy
    produces from the state at the point of failure (the original one,
    or the original one with the attempted decoding recorded); a failing
    [getmtime] is such a case, and its exception is the one that
    propagates. *)
Theorem add_image_failure_atomic files self rt :
  (forall rt' e,
      AddImageAction.apply files self rt = (rt', Py.Raise e) ->
      View.media (view rt') = View.media (view rt)
      /\ (rt' = DrawAction.apply (AddImageAction.drawable self) rt
          \/ rt' = DrawAction.apply (AddImageAction.drawable self)
                     (log_decode (AddImageAction.path self) rt)))
  /\ (forall e,
      getmtime files (AddImageAction.path self) = Py.Raise e ->
      AddImageAction.apply files self rt =
        (DrawAction.apply (AddImageAction.drawable self) rt, Py.Raise e))
  /\ (forall mtime e,
      getmtime files (AddImageAction.path self) = Py.Return mtime ->
      stale self rt mtime ->
      AddImageAction.load_image files (AddImageAction.path self) = Py.Raise e ->
      AddImageAction.apply files self rt =
        (DrawAction.apply (AddImageAction.drawable self)
           (log_decode (AddImageAction.path self) rt), Py.Raise e)).
Proof.
  split; [| split].
  - intros rt' e. unfold AddImageAction.apply.
    destruct (AddImageAction.apply_body files self rt) as [rt0 r] eqn:Hb.
    intros [= <- ->]. rewrite DrawAction_apply_view.
    destruct (apply_body_raise _ _ _ _ _ Hb) as [-> | ->]; auto.
  - intros e He. unfold AddImageAction.apply, AddImageAction.apply_body.
    by rewrite He.
  - intros mtime e Hm Hs Hl.
    pose proof (apply_body_miss files self rt mtime Hm Hs) as Hb.
    rewrite Hl in Hb. by rewrite (apply_after_body _ _ _ _ _ Hb).
Qed.

Lemma add_image_failure_atomic_witness :
  let out := AddImageAction.apply no_files
               (example_add "preview" "/missing.png") example_runtime in
  snd out = Py.Raise Py.FileNotFoundError
  /\ View.media (view (fst out)) = View.media (view example_runtime)
  /\ tasks (fst out) = [RedrawTask].
Proof.
  destruct (add_image_failure_atomic no_files
              (example_add "preview" "/missing.png") example_runtime)
    as (Hany & Hmtime & _).
  pose proof (Hmtime Py.FileNotFoundError eq_refl) as Heq.
  destruct (Hany _ _ Heq) as [Hmedia _].
  cbv zeta. rewrite Heq. simpl. split; [reflexivity |].
  split; [exact Hmedia | reflexivity].
Defined.



(** ** The redraw scheduler *)

(** An action touches the scheduler through its draw policy only. *)
Lemma apply_through_policy files a rt :
  exists rt0,
    fst (apply files a rt) = DrawAction.apply (drawable_of a) rt0
    /\ redraw_scheduled rt0 = redraw_scheduled rt
    /\ tasks rt0 = tasks rt
    /\ repaints rt0 = repaints rt
    /\ windows rt0 = windows rt.
Proof.
  destruct a as [a | a]; simpl.
  - unfold AddImageAction.apply.
    destruct (AddImageAction.apply_body files a rt) as [rt0 r] eqn:Hb.
    exists rt0. split; [reflexivity |].
    revert Hb. unfold AddImageAction.apply_body.
    destruct (getmtime files (AddImageAction.path a)); [| by intros [= <- _]].
    destruct (View.media (view rt) !! AddImageAction.identifier a); simpl.
    + destruct (_ || _);
        [destruct (AddImageAction.load_image _ _) |]; by intros [= <- _].
    + destruct (AddImageAction.load_image _ _); by intros [= <- _].
  - unfold RemoveImageAction.apply, RemoveImageAction.apply_body.
    case_bool_decide; simpl; eexists; (split; [reflexivity |]); done.
Qed.

(** One deferred action: afterwards exactly one redraw task is scheduled,
    whether or not one was before, and nothing was painted. *)
Lemma deferred_step files a rt :
  deferred a -> coherent rt ->
  let rt' := fst (apply files a rt) in
  coherent rt' /\ redraw_scheduled rt' = true /\ tasks rt' = [RedrawTask]
  /\ repaints rt' = repaints rt.
Proof.
  intros [Hd Hs] Hc rt'. subst rt'.
  destruct (apply_through_policy files a rt) as (rt0 & -> & Hf & Ht & Hr & _).
  unfold coherent in *. unfold DrawAction.apply, DrawAction.schedule_redraw.
  rewrite Hd, Hs, Hf. rewrite <- Ht, <- Hr in *.
  destruct (redraw_scheduled rt); simpl.
  - rewrite Hf. simpl. by rewrite Hc.
  - rewrite Hc. done.
Qed.

Lemma apply_all_app cmds1 cmds2 rt :
  apply_all (cmds1 ++ cmds2) rt = apply_all cmds2 (apply_all cmds1 rt).
Proof.
  revert rt. induction cmds1 as [| [files a] cmds1 IH]; intros rt; simpl; auto.
Qed.

Lemma deferred_all cmds rt :
  Forall (fun c => deferred (snd c)) cmds -> coherent rt ->
  let rt' := apply_all cmds rt in
  coherent rt' /\ repaints rt' = repaints rt
  /\ (cmds <> [] -> redraw_scheduled rt' = true /\ tasks rt' = [RedrawTask]).
Proof.
  intros Hall. revert rt.
  induction Hall as [| [files a] cmds Ha Hall IH]; intros rt Hc; simpl.
  - done.
  - destruct (deferred_step files a rt Ha Hc) as (Hc1 & Hf1 & Ht1 & Hr1).
    destruct (IH _ Hc1) as (Hc2 & Hr2 & Hne).
    split; [done |]. split; [congruence |]. intros _.
    destruct cmds as [| c cmds']; [by simpl | apply Hne; done].
Qed.

(** The loop, given one scheduled redraw: it paints the current view and
    clears the flag. *)
Lemma run_until_idle_redraw rt :
  tasks rt = [RedrawTask] ->
  run_until_idle rt =
    set_redraw_scheduled false (draw_windows (set_tasks [] rt)).
Proof.
  intros Ht. unfold run_until_idle, loop_step. rewrite Ht. simpl.
  unfold loop_step. by rewrite Ht.
Qed.

(** C1.  Deferred-draw actions applied in a row, from a state in which
    flag and loop agree: after every prefix at most one redraw task is
    scheduled (exactly one, with the flag set, once an action was applied);
    a request finds the flag set and is dropped, or finds it clear, sets it
    and gets the task; and when the loop then runs until idle, exactly one
    repaint is added, of the windows and the view as all the actions left
    them, and the flag is clear again. *)
Theorem redraw_coalesced cmds rt :
  cmds <> [] ->
  Forall (fun c => deferred (snd c)) cmds ->
  coherent rt ->
  (forall k,
      let rtk := apply_all (take k cmds) rt in
      (length (tasks rtk) <= 1)%nat
      /\ ((0 < k)%nat ->
          tasks rtk = [RedrawTask] /\ redraw_scheduled rtk = true))
  /\ (forall rt0,
      DrawAction.schedule_redraw rt0 =
        if redraw_scheduled rt0 then (rt0, None)
        else (set_redraw_scheduled true rt0, Some RedrawTask))
  /\ let rt' := apply_all cmds rt in
     let rt'' := run_until_idle rt' in
     repaints rt'' = (repaints rt ++ [mkRepaint (windows rt') (view rt')])%list
     /\ view rt'' = view rt'
     /\ redraw_scheduled rt'' = false
     /\ tasks rt'' = [].
Proof.
  intros Hne Hall Hc. split; [| split].
  - intros k rtk. subst rtk.
    assert (Forall (fun c => deferred (snd c)) (take k cmds)) as Hk
      by (by apply Forall_take).
    destruct (deferred_all _ rt Hk Hc) as (Hck & _ & Hnek).
    split.
    + unfold coherent in Hck. rewrite Hck.
      destruct (redraw_scheduled _); simpl; lia.
    + intros Hpos.
      destruct Hnek as [Hf Ht]; [| done].
      destruct k; [lia |]. destruct cmds; [done | discriminate].
  - intros rt0. unfold DrawAction.schedule_redraw.
    by destruct (redraw_scheduled rt0).
  - intros rt' rt''. subst rt'' rt'.
    destruct (deferred_all _ rt Hall Hc) as (_ & Hr & Hsched).
    destruct (Hsched Hne) as [_ Ht].
    rewrite (run_until_idle_redraw _ Ht). simpl. by rewrite Hr.
Qed.

Lemma redraw_coalesced_witness :
  coherent example_runtime
  /\ length (repaints (run_until_idle
                        (apply_all example_commands example_runtime))) = 1%nat.
Proof.
  split; [reflexivity |].
  destruct (redraw_coalesced example_commands example_runtime)
    as (_ & _ & Hpaint & _).
  - discriminate.
  - repeat constructor.
  - reflexivity.
  - rewrite Hpaint. reflexivity.
Defined.

(** ** Loading an image *)

Lemma blend8_transparent c : Image.blend8 0 255 c = 255.
Proof. unfold Image.blend8. rewrite Z.mul_0_r. reflexivity. Qed.

Lemma blend8_opaque bg c : 0 <= c <= 255 -> Image.blend8 255 bg c = c.
Proof.
  intros Hc. unfold Image.blend8.
  replace (bg * (255 - 255) + c * 255 + 128) with (c * 255 + 128) by lia.
  rewrite !Z.shiftr_div_pow2 by lia. change (2 ^ 8) with 256.
  Z.div_mod_to_equations. lia.
Qed.

Lemma blend_pixels_lookup n color src mask i s a :
  (i < n)%nat -> src !! i = Some s -> mask !! i = Some a ->
  Image.blend_pixels (repeat color n) src mask !! i
    = Some (Image.blend_pixel a color s).
Proof.
  revert src mask i. induction n as [| n IH]; intros src mask i Hi Hs Ha.
  - lia.
  - destruct src as [| s0 src]; [done |]. destruct mask as [| a0 mask]; [done |].
    destruct i as [| i]; simpl in *.
    + by simplify_eq.
    + apply IH; [lia | done | done].
Qed.

Lemma copy_pixels_lookup n color src i s :
  (i < n)%nat -> src !! i = Some s ->
  Image.copy_pixels (repeat color n) src !! i = Some s.
Proof.
  revert src i. induction n as [| n IH]; intros src i Hi Hs.
  - lia.
  - destruct src as [| s0 src]; [done |].
    destruct i as [| i]; simpl in *; [done | apply IH; [lia | done]].
Qed.

(** The levels of a single-band image are its pixels. *)
Lemma levels_band sz xs : Image.levels (Image.mk sz (Image.L xs)) = xs.
Proof.
  unfold Image.levels, Image.rgba_pixels. simpl.
  induction xs as [| x xs IH]; simpl; [done | by f_equal].
Qed.

(** What [remove_opacity] returns, by the mode of the image. *)
Lemma remove_opacity_composited im :
  composited im = true ->
  AddImageAction.remove_opacity im =
    Py.Return
      (Image.mk (Image.size im)
         (Image.RGB
            (Image.blend_pixels (repeat AddImageAction.white (area im))
               (Image.rgb_pixels im)
               (Image.opacity <$> Image.rgba_pixels im)))).
Proof.
  destruct im as [sz [px | px | pal px | px | px]]; try discriminate; intros _;
    unfold AddImageAction.remove_opacity; simpl;
    unfold Image.paste; simpl; by rewrite levels_band.
Qed.

Lemma remove_opacity_pasted im :
  composited im = false ->
  AddImageAction.remove_opacity im =
    Py.Return
      (Image.mk (Image.size im)
         (Image.RGB
            (Image.copy_pixels (repeat AddImageAction.white (area im))
               (Image.rgb_pixels im)))).
Proof.
  destruct im as [sz [px | px | pal px | px | px]]; try discriminate; intros _;
    reflexivity.
Qed.

Lemma rgb_pixels_RGB sz px : Image.rgb_pixels (Image.mk sz (Image.RGB px)) = px.
Proof.
  unfold Image.rgb_pixels, Image.rgba_pixels. simpl.
  induction px as [| [[r g] b] px IH]; simpl; [done | by f_equal].
Qed.

Lemma blend_pixel_transparent c :
  Image.blend_pixel 0 AddImageAction.white c = AddImageAction.white.
Proof.
  destruct c as [[r g] b]. unfold Image.blend_pixel, AddImageAction.white.
  by rewrite !blend8_transparent.
Qed.

(** C6, as the code has it.  [load_image] returns whenever the file
    opens; the image it returns is in mode RGB, so it has no alpha band,
    and has the size of the source.  A source opened in mode RGBA, or in
    mode P and so expanded to RGBA first, is blended onto white pixel by
    pixel with its alpha as mask, which leaves a fully transparent pixel
    white.  Any other source is pasted onto the white canvas without a
    mask: each pixel keeps its colour, whatever its alpha. *)
Theorem load_image_normalises files path im :
  Image_open files path = Py.Return im ->
  exists out,
    AddImageAction.load_image files path = Py.Return out
    /\ Image.mode out = "RGB"
    /\ Image.size out = Image.size im
    /\ (composited im = true -> transparency_whitened im out)
    /\ forall i p,
        (i < area im)%nat ->
        Image.rgba_pixels im !! i = Some p ->
        Image.rgb_pixels out !! i =
          Some (if composited im
                then Image.blend_pixel (Image.opacity p) AddImageAction.white
                       (Image.colour p)
                else Image.colour p).
Proof.
  intros Hopen. unfold AddImageAction.load_image. rewrite Hopen. simpl.
  assert (forall i p,
             (i < area im)%nat -> Image.rgba_pixels im !! i = Some p ->
             Image.rgb_pixels im !! i = Some (Image.colour p)) as Hcol.
  { intros i p _ Hp. unfold Image.rgb_pixels.
    by rewrite list_lookup_fmap, Hp. }
  destruct (composited im) eqn:Hc.
  - rewrite (remove_opacity_composited im Hc). eexists.
    split; [reflexivity |]. split; [reflexivity |]. split; [reflexivity |].
    assert (forall i p,
               (i < area im)%nat -> Image.rgba_pixels im !! i = Some p ->
               Image.blend_pixels (repeat AddImageAction.white (area im))
                 (Image.rgb_pixels im)
                 (Image.opacity <$> Image.rgba_pixels im) !! i
               = Some (Image.blend_pixel (Image.opacity p)
                         AddImageAction.white (Image.colour p))) as Hblend.
    { intros i p Hi Hp. apply blend_pixels_lookup; [done | by apply Hcol |].
      by rewrite list_lookup_fmap, Hp. }
    split.
    + intros _ i p Hi Hp Ha. rewrite rgb_pixels_RGB, (Hblend i p Hi Hp), Ha.
      by rewrite blend_pixel_transparent.
    + intros i p Hi Hp. rewrite rgb_pixels_RGB. by apply Hblend.
  - rewrite (remove_opacity_pasted im Hc). eexists.
    split; [reflexivity |]. split; [reflexivity |]. split; [reflexivity |].
    split; [done |].
    intros i p Hi Hp. rewrite rgb_pixels_RGB.
    apply copy_pixels_lookup; [done | by apply Hcol].
Qed.

Lemma load_image_normalises_witness :
  exists out,
    AddImageAction.load_image (files_holding colour_alpha_image) "/tmp/a.png"
    = Py.Return out
    /\ Image.mode out = "RGB"
    /\ Image.rgb_pixels out !! 0%nat = Some AddImageAction.white.
Proof.
  destruct (load_image_normalises (files_holding colour_alpha_image)
              "/tmp/a.png" colour_alpha_image eq_refl)
    as (out & Hout & Hmode & _ & Hwhite & _).
  exists out. split; [exact Hout |]. split; [exact Hmode |].
  apply (Hwhite eq_refl 0%nat (1, 2, 3, 0)).
  - vm_compute. lia.
  - reflexivity.
  - reflexivity.
Defined.

(** C6, as the claim has it, fails: a grey image with an alpha band keeps
    the grey level of its fully transparent pixel, here black, where the
    claim has the white of the background. *)
Lemma grey_alpha_counterexample :
  let files := files_holding grey_alpha_image in
  let out := Image.mk (1, 1) (Image.RGB [(0, 0, 0)]) in
  Image.getbands grey_alpha_image = ["L"; "A"]
  /\ AddImageAction.load_image files "/tmp/grey.png" = Py.Return out
  /\ ~ transparency_whitened grey_alpha_image out.
Proof.
  cbv zeta. split; [reflexivity |]. split; [reflexivity |].
  intros H. specialize (H 0%nat (0, 0, 0, 0)).
  assert (Some (0, 0, 0) = Some AddImageAction.white) as Heq.
  { apply H; [vm_compute; lia | reflexivity | reflexivity]. }
  discriminate Heq.
Qed.

(** ** The command consumer *)

(** An exception that the [except] clause does not name leaves the
    loop. *)
Lemma consume_escape dec line files rest rt rt' e :
  line <> EmptyString ->
  execute dec files line rt = (rt', Py.Raise e) ->
  Py.isinstance e handled = false ->
  consume dec ((line, files) :: rest) rt = (rt', Py.Raise e).
Proof.
  intros Hline Hex Hno. cbn [consume].
  apply String.eqb_neq in Hline as ->. by rewrite Hex, Hno.
Qed.

(** A sequence of two steps raises in the first or in the second. *)
Lemma bind_raises {A B} (r : Py.result A) (k : A -> Py.result B) e :
  (r ≫= k) = Py.Raise e ->
  r = Py.Raise e \/ exists a, r = Py.Return a /\ k a = Py.Raise e.
Proof. destruct r as [a | e']; simpl; [eauto | by intros [= ->]; left]. Qed.

Lemma fmap_raises {A B} (f : A -> B) (r : Py.result A) e :
  f <$> r = Py.Raise e -> r = Py.Raise e.
Proof. destruct r; simpl; [done | by intros [= ->]]. Qed.

















(** A line that holds nothing but its newline is not empty to the loop:
    it is decoded like any command, here reported as malformed, and the
    consumer goes on with the line after it. *)
Lemma newline_only_is_a_command :
  let input := [(newline, no_files); (remove_line, no_files)] in
  let out := consume example_decoding input example_runtime in
  snd out = Py.Return ()
  /\ reports (fst out) = [Py.JSONDecodeError]
  /\ View.media (view (fst out)) !! "preview" = None.
Proof. vm_compute. repeat split. Qed.

(** ** Re-enumerating the terminal windows *)

Section Dictionaries.

Context {V : Type} (key : V -> Z).

Lemma foldl_insert_dom (l : list V) (m : gmap Z V) :
  dom (foldl (fun m v => <[key v := v]> m) m l)
  = dom m ∪ list_to_set (key <$> l).
Proof.
  revert m. induction l as [| v l IH]; intros m; simpl.
  - set_solver.
  - rewrite IH, dom_insert_L. set_solver.
Qed.

Lemma foldl_insert_lookup (l : list V) (m : gmap Z V) k v :
  foldl (fun m v => <[key v := v]> m) m l !! k = Some v ->
  (v ∈ l /\ key v = k) \/ m !! k = Some v.
Proof.
  revert m. induction l as [| v0 l IH]; intros m; simpl.
  - auto.
  - intros H. destruct (IH _ H) as [[Hin Hk] | Hm].
    + left. split; [by apply list_elem_of_further | done].
    + destruct (decide (key v0 = k)) as [<- | Hne].
      * rewrite lookup_insert_eq in Hm. injection Hm as ->.
        left. split; [apply list_elem_of_here | done].
      * rewrite lookup_insert_ne in Hm by done. by right.
Qed.

Lemma dict_by_dom (l : list V) :
  dom (dict_by key l) = list_to_set (key <$> l).
Proof. unfold dict_by. rewrite foldl_insert_dom. set_solver. Qed.

Lemma dict_by_lookup (l : list V) k v :
  dict_by key l !! k = Some v -> v ∈ l /\ key v = k.
Proof.
  intros H. destruct (foldl_insert_lookup _ _ _ _ H) as [? | Hm]; [done |].
  by rewrite lookup_empty in Hm.
Qed.

(** Looking up the keys of a set inside the dictionary's domain finds
    one item per key. *)
Lemma dict_by_get_all (l : list V) (ks : list Z) :
  Forall (fun k => k ∈ dom (dict_by key l)) ks ->
  Forall2 (fun k v => key v = k /\ v ∈ l) ks
    (omap (fun k => dict_by key l !! k) ks).
Proof.
  induction 1 as [| k ks Hk _ IH]; simpl; [constructor |].
  apply elem_of_dom in Hk as [v Hv]. rewrite Hv.
  constructor; [| done]. destruct (dict_by_lookup _ _ _ Hv). done.
Qed.

End Dictionaries.

(** Removing a tracked window from a list without two windows on one
    parent removes its parent's id, and only that. *)
Lemma remove_first_ids w l :
  NoDup (parent_id <$> l) -> w ∈ l ->
  NoDup (parent_id <$> remove_first w l)
  /\ tracked_ids (remove_first w l) = tracked_ids l ∖ {[parent_id w]}
  /\ forall w', w' ∈ l -> parent_id w' <> parent_id w ->
       w' ∈ remove_first w l.
Proof.
  unfold tracked_ids.
  induction l as [| w0 l IH]; intros Hnd Hin; [by apply elem_of_nil in Hin |].
  rewrite fmap_cons in Hnd. apply NoDup_cons in Hnd as [Hfresh Hnd].
  cbn [remove_first]. destruct (decide (w = w0)) as [-> | Hne].
  - split; [done |]. split.
    + rewrite fmap_cons, list_to_set_cons.
      assert (parent_id w0 ∉ (list_to_set (parent_id <$> l) : gset Z))
        by (by rewrite elem_of_list_to_set).
      set_solver.
    + intros w' Hw' Hid. apply elem_of_cons in Hw' as [-> | ?]; done.
  - apply elem_of_cons in Hin as [? | Hin]; [done |].
    destruct (IH Hnd Hin) as (IHnd & IHset & IHin).
    assert (parent_id w0 <> parent_id w) as Hids.
    { intros Heq. apply Hfresh. rewrite Heq. by apply list_elem_of_fmap_2. }
    split; [| split].
    + rewrite fmap_cons. apply NoDup_cons. split; [| done].
      intros Hbad.
      assert (parent_id w0 ∈
                (list_to_set (parent_id <$> remove_first w l) : gset Z)) as Hs
        by (by rewrite elem_of_list_to_set).
      rewrite IHset in Hs. apply elem_of_difference in Hs as [Hs _].
      by rewrite elem_of_list_to_set in Hs.
    + rewrite !fmap_cons, !list_to_set_cons, IHset. set_solver.
    + intros w' Hw' Hid. apply elem_of_cons in Hw' as [-> | Hw'].
      * apply list_elem_of_here.
      * apply list_elem_of_further. by apply IHin.
Qed.

Lemma isub_ids items : forall l,
  NoDup (parent_id <$> l) ->
  NoDup (parent_id <$> items) ->
  Forall (fun w => w ∈ l) items ->
  NoDup (parent_id <$> isub l items)
  /\ tracked_ids (isub l items) = tracked_ids l ∖ tracked_ids items.
Proof.
  unfold isub.
  induction items as [| w items IH]; intros l Hl Hitems Hin; cbn [foldl].
  - split; [done |]. unfold tracked_ids. set_solver.
  - rewrite fmap_cons in Hitems. apply NoDup_cons in Hitems as [Hw Hitems].
    apply Forall_cons in Hin as [Hwl Hin].
    destruct (remove_first_ids w l Hl Hwl) as (Hnd & Hset & Hkeep).
    destruct (IH (remove_first w l) Hnd Hitems) as [Hnd' Hset'].
    { apply Forall_forall. intros w' Hw'.
      apply Hkeep; [by eapply Forall_forall in Hin |].
      intros Heq. apply Hw. rewrite <- Heq. by apply list_elem_of_fmap_2. }
    split; [done |]. rewrite Hset', Hset.
    unfold tracked_ids. rewrite fmap_cons, list_to_set_cons. set_solver.
Qed.

(** The two sets [query_windows] intersects the symmetric difference with
    are the ids that appeared and the ids that vanished. *)
Lemma symmetric_difference_parts (P T : gset Z) :
  ((P ∖ T) ∪ (T ∖ P)) ∩ P = P ∖ T
  /\ ((P ∖ T) ∪ (T ∖ P)) ∩ T = T ∖ P
  /\ (P = T <-> P ∖ T = ∅ /\ T ∖ P = ∅).
Proof.
  split; [set_solver | split; [set_solver |]].
  split; [set_solver |]. intros [H1 H2]. apply set_eq. intros x.
  destruct (decide (x ∈ P)), (decide (x ∈ T)); set_solver.
Qed.

(** [query_windows] without its local names: the windows of the parents
    that appeared are appended, those of the parents that vanished are
    taken out, and the windows are painted when either set has a
    member. *)
Lemma query_windows_unfold infos offset rt :
  let P := reported_ids infos in
  let T := tracked_ids (windows rt) in
  let added := omap (fun wid => dict_by window_id infos !! wid)
                 (elements (P ∖ T)) in
  let removed := omap (fun wid => dict_by parent_id (windows rt) !! wid)
                   (elements (T ∖ P)) in
  let rt1 := set_windows (isub (windows rt ++ create added) removed)
               (set_offset offset rt) in
  query_windows infos offset rt
  = if bool_decide (P = T) then set_offset offset rt else draw_windows rt1.
Proof.
  intros P T added removed rt1. unfold query_windows.
  change (windows (set_offset offset rt)) with (windows rt).
  change (fun window : Window => window_id (parent_window window))
    with parent_id.
  rewrite !dict_by_dom. fold (reported_ids infos) (tracked_ids (windows rt)).
  fold P T.
  destruct (symmetric_difference_parts P T) as (-> & -> & Hsame).
  destruct (decide (P = T)) as [HPT | HPT].
  - rewrite (bool_decide_eq_true_2 _ HPT).
    apply Hsame in HPT as [-> ->]. rewrite !bool_decide_eq_true_2 by done.
    reflexivity.
  - rewrite (bool_decide_eq_false_2 _ HPT). subst rt1 added removed.
    destruct (decide (P ∖ T = ∅)) as [Ha | Ha],
             (decide (T ∖ P = ∅)) as [Hr | Hr].
    + exfalso. apply HPT, Hsame. done.
    + rewrite (bool_decide_eq_true_2 _ Ha), (bool_decide_eq_false_2 _ Hr).
      rewrite Ha, elements_empty. simpl. unfold create. simpl.
      rewrite app_nil_r. by destruct rt.
    + rewrite (bool_decide_eq_false_2 _ Ha), (bool_decide_eq_true_2 _ Hr).
      rewrite Hr, elements_empty. simpl. reflexivity.
    + rewrite (bool_decide_eq_false_2 _ Ha), (bool_decide_eq_false_2 _ Hr).
      simpl. reflexivity.
Qed.

Lemma Forall2_keys {V} (key : V -> Z) (Q : V -> Prop) ks vs :
  Forall2 (fun k v => key v = k /\ Q v) ks vs ->
  key <$> vs = ks /\ Forall Q vs.
Proof.
  induction 1 as [| k v ks vs [Hk Hq] _ [IH1 IH2]]; [done |].
  split; [by rewrite fmap_cons, Hk, IH1 | by constructor].
Qed.

(** C8.  [query_windows] records the offset it is given.  It appends one
    window for each id that is reported and not tracked, made from the
    reported information of that id, and takes out one tracked window for
    each id that is tracked and no longer reported; when no window is
    tracked twice, the tracked ids are afterwards exactly the reported
    ones.  It repaints, once and against the updated windows, exactly when
    the reported ids differ from the tracked ones: with the same ids,
    nothing is painted and the windows stay. *)
Theorem query_windows_diff infos offset rt :
  let P := reported_ids infos in
  let T := tracked_ids (windows rt) in
  let rt' := query_windows infos offset rt in
  View.offset (view rt') = offset
  /\ (exists added removed,
        Forall2 (fun wid info => window_id info = wid /\ info ∈ infos)
          (elements (P ∖ T)) added
        /\ Forall2 (fun wid w => parent_id w = wid /\ w ∈ windows rt)
             (elements (T ∖ P)) removed
        /\ windows rt' = isub (windows rt ++ create added) removed)
  /\ (P = T -> repaints rt' = repaints rt /\ windows rt' = windows rt)
  /\ (P <> T ->
      repaints rt'
      = (repaints rt ++ [mkRepaint (windows rt') (view rt')])%list)
  /\ (NoDup (parent_id <$> windows rt) ->
      tracked_ids (windows rt') = P
      /\ NoDup (parent_id <$> windows rt')).
Proof.
  intros P T rt'.
  pose proof (query_windows_unfold infos offset rt) as Hq. cbv zeta in Hq.
  fold P T in Hq.
  set (added := omap (fun wid => dict_by window_id infos !! wid)
                  (elements (P ∖ T))) in *.
  set (removed := omap (fun wid => dict_by parent_id (windows rt) !! wid)
                    (elements (T ∖ P))) in *.
  assert (Forall2 (fun wid info => window_id info = wid /\ info ∈ infos)
            (elements (P ∖ T)) added) as Hadded.
  { apply dict_by_get_all, Forall_forall. intros wid Hwid.
    rewrite dict_by_dom. apply elem_of_elements in Hwid.
    fold (reported_ids infos). fold P. set_solver. }
  assert (Forall2 (fun wid w => parent_id w = wid /\ w ∈ windows rt)
            (elements (T ∖ P)) removed) as Hremoved.
  { apply dict_by_get_all, Forall_forall. intros wid Hwid.
    rewrite dict_by_dom. apply elem_of_elements in Hwid.
    fold (tracked_ids (windows rt)). fold T. set_solver. }
  assert (windows rt' = isub (windows rt ++ create added) removed) as Hws.
  { subst rt'. rewrite Hq. case_bool_decide as HPT; [| reflexivity].
    subst added removed. rewrite HPT, difference_diag_L, elements_empty.
    simpl. unfold create. simpl. by rewrite app_nil_r. }
  split; [| split; [| split; [| split]]].
  - subst rt'. rewrite Hq. by case_bool_decide.
  - by exists added, removed.
  - intros HPT. subst rt'. rewrite Hq, (bool_decide_eq_true_2 _ HPT).
    done.
  - intros HPT. subst rt'.
    rewrite Hq, (bool_decide_eq_false_2 _ HPT). reflexivity.
  - intros Hnd. rewrite Hws.
    destruct (Forall2_keys _ _ _ _ Hadded) as [Hak _].
    destruct (Forall2_keys _ _ _ _ Hremoved) as [Hrk Hrin].
    assert (parent_id <$> create added = elements (P ∖ T)) as Hcreated.
    { unfold create. rewrite <- list_fmap_compose. exact Hak. }
    destruct (isub_ids removed (windows rt ++ create added)) as [Hnd' Hset].
    + rewrite fmap_app, Hcreated. apply NoDup_app.
      split; [done |]. split; [| apply NoDup_elements].
      intros wid Hw Ha. apply elem_of_elements in Ha.
      assert (wid ∈ T) by (subst T; unfold tracked_ids;
                           by rewrite elem_of_list_to_set).
      set_solver.
    + rewrite Hrk. apply NoDup_elements.
    + eapply Forall_impl; [exact Hrin |]. intros w Hw.
      apply elem_of_app. by left.
    + split; [| done]. rewrite Hset. unfold tracked_ids.
      rewrite fmap_app, Hcreated, Hrk, list_to_set_app_L.
      rewrite !list_to_set_elements_L. fold (tracked_ids (windows rt)).
      fold T. apply set_eq. intros x.
      destruct (decide (x ∈ P)), (decide (x ∈ T)); set_solver.
Qed.

Lemma query_windows_diff_witness :
  let rt' := query_windows [terminal 2; terminal 3] (5, 7) tracking_runtime in
  windows rt' = [mkWindow (terminal 2); mkWindow (terminal 3)]
  /\ length (repaints rt') = 1%nat
  /\ tracked_ids (windows rt') = reported_ids [terminal 2; terminal 3]
  /\ repaints (query_windows [terminal 2; terminal 1] (5, 7) tracking_runtime)
     = [].
Proof.
  destruct (query_windows_diff [terminal 2; terminal 3] (5, 7)
              tracking_runtime) as (_ & _ & _ & Hpaint & Hids).
  destruct (query_windows_diff [terminal 2; terminal 1] (5, 7)
              tracking_runtime) as (_ & _ & Hsame & _).
  cbv zeta. split; [by vm_compute |]. split; [| split].
  - rewrite Hpaint; [reflexivity |]. intros Heq.
    assert (3 ∈ reported_ids [terminal 2; terminal 3]) as Hin
      by (unfold reported_ids; set_solver).
    rewrite Heq in Hin. unfold tracked_ids in Hin. set_solver.
  - apply Hids. simpl. repeat constructor; set_solver.
  - destruct Hsame as [-> _]; [| reflexivity].
    unfold reported_ids, tracked_ids. simpl. set_solver.
Defined.

(** ** The tmux hooks *)

Lemma append_cons c s t : String c s +:+ t = String c (s +:+ t).
Proof. reflexivity. Qed.

Lemma append_nil_r s : s +:+ EmptyString = s.
Proof.
  induction s as [| c s IH]; [done | by rewrite append_cons, IH].
Qed.

Lemma append_assoc s1 s2 s3 : (s1 +:+ s2) +:+ s3 = s1 +:+ (s2 +:+ s3).
Proof.
  induction s1 as [| c s1 IH]; [done | by rewrite !append_cons, IH].
Qed.

Lemma solid_append s1 s2 :
  solid (s1 +:+ s2) = solid s1 && solid s2.
Proof.
  induction s1 as [| c s1 IH]; [done |].
  rewrite append_cons. cbn [solid]. by rewrite IH, andb_assoc.
Qed.

(** Reading a run of characters that are not white space extends the
    word being read. *)
Lemma split_from_solid w : forall acc rest,
  solid w = true ->
  split_from acc (w +:+ rest) = split_from (acc +:+ w) rest.
Proof.
  induction w as [| c w IH]; intros acc rest Hw.
  - by rewrite append_nil_r.
  - cbn [solid] in Hw. apply andb_true_iff in Hw as [Hc Hw].
    apply negb_true_iff in Hc.
    rewrite append_cons. cbn [split_from].
    rewrite Hc, (IH _ _ Hw), append_assoc. reflexivity.
Qed.

(** Splitting gives words. *)
Lemma split_from_words s : forall acc,
  solid acc = true -> Forall word (split_from acc s).
Proof.
  induction s as [| c s IH]; intros acc Hacc; simpl.
  - destruct acc; [constructor |]. by repeat constructor.
  - destruct (isspace c) eqn:Hc.
    + destruct acc; [by apply IH |].
      constructor; [done | by apply IH].
    + apply IH. rewrite solid_append, Hacc. cbn [solid]. by rewrite Hc.
Qed.

(** Joining words with a blank and splitting again gives the words. *)
Lemma split_join ws : Forall word ws -> split (join " " ws) = ws.
Proof.
  unfold split. induction 1 as [| w ws [Hne Hw] Hws IH]; [done |].
  destruct ws as [| w2 ws].
  - simpl. rewrite <- (append_nil_r w) at 1.
    rewrite (split_from_solid w _ _ Hw). simpl. by destruct w.
  - change (join " " (w :: w2 :: ws))
      with (w +:+ " " +:+ join " " (w2 :: ws)).
    rewrite (split_from_solid w _ _ Hw).
    change (EmptyString +:+ w) with w.
    change (" " +:+ join " " (w2 :: ws))
      with (String " "%char (join " " (w2 :: ws))).
    cbn [split_from]. change (isspace " "%char) with true. cbn iota.
    rewrite IH. by destruct w.
Qed.

Lemma join_words_empty ws :
  Forall word ws -> join " " ws = EmptyString <-> ws = [].
Proof.
  intros Hws. split; [| by intros ->].
  destruct Hws as [| w ws [Hne _] _]; [done |].
  destruct ws; simpl; [done |]. by destruct w.
Qed.

(** The pids a lock file records are words, whatever the file holds. *)
Lemma recorded_pids_words st (pids : gset string) :
  pids ⊆ recorded_pids st -> Forall word (elements pids).
Proof.
  intros Hsub. apply Forall_forall. intros w Hw.
  apply elem_of_elements in Hw. apply Hsub in Hw.
  unfold recorded_pids in Hw. apply elem_of_list_to_set in Hw.
  pose proof (split_from_words (Tmux.lock_file st) EmptyString eq_refl) as H.
  by eapply Forall_forall in H.
Qed.

(** The loop of [update_hooks] over the events. *)
Lemma update_loop (b : bool) command evs : forall st,
  let st' := foldl (fun st event =>
                      if b then Tmux.register_hook event command st
                      else Tmux.unregister_hook event st) st evs in
  Tmux.lock_file st' = Tmux.lock_file st
  /\ forall event,
      Tmux.hooks st' !! event =
        if decide (event ∈ evs)
        then (if b then Some command else None)
        else Tmux.hooks st !! event.
Proof.
  induction evs as [| ev evs IH]; intros st; cbn [foldl].
  - split; [done |]. intros event. by rewrite decide_False by apply not_elem_of_nil.
  - destruct (IH (if b then Tmux.register_hook ev command st
                  else Tmux.unregister_hook ev st)) as [Hfile Hhooks].
    split; [rewrite Hfile; by destruct b |].
    intros event. rewrite Hhooks.
    destruct (decide (event ∈ evs)) as [Hin | Hnin].
    + rewrite decide_True by (by apply list_elem_of_further). done.
    + destruct (decide (event = ev)) as [-> | Hne].
      * rewrite decide_True by apply list_elem_of_here.
        destruct b; simpl; [apply lookup_insert_eq | apply lookup_delete_eq].
      * rewrite decide_False by (rewrite elem_of_cons; naive_solver).
        destruct b; simpl;
          [by rewrite lookup_insert_ne | by rewrite lookup_delete_ne].
Qed.

(** What [update_hooks] leaves, for a set of words. *)
Lemma update_hooks_spec (pids : gset string) st :
  Forall word (elements pids) ->
  let st' := update_hooks pids st in
  Tmux.lock_file st' = join " " (elements pids)
  /\ recorded_pids st' = pids
  /\ forall event,
      Tmux.hooks st' !! event =
        if decide (event ∈ events)
        then (if decide (pids = ∅) then None
              else Some (command_template +:+ join " " (elements pids)))
        else Tmux.hooks st !! event.
Proof.
  intros Hwords st'. subst st'. unfold update_hooks.
  destruct (update_loop
              (negb (String.eqb (join " " (elements pids)) EmptyString))
              (command_template +:+ join " " (elements pids)) events
              (Tmux.overwrite (join " " (elements pids)) st))
    as [Hfile Hhooks].
  split; [by rewrite Hfile |]. split.
  - unfold recorded_pids. rewrite Hfile. simpl.
    rewrite (split_join _ Hwords). apply list_to_set_elements_L.
  - intros event. rewrite Hhooks. destruct (decide (event ∈ events)); [| done].
    destruct (decide (pids = ∅)) as [-> | Hne].
    + by rewrite elements_empty.
    + destruct (String.eqb_spec (join " " (elements pids)) EmptyString)
        as [Hempty | _]; [| done].
      apply (join_words_empty _ Hwords) in Hempty.
      apply elements_empty_inv in Hempty. by apply leibniz_equiv in Hempty.
Qed.

(** C9.  After [remove_hooks] the lock file records the pids it recorded
    before without the pid of the process itself.  When none remains, no
    hook is registered for any watched event; otherwise the hook of every
    watched event is the command that signals the remaining pids.  Hooks
    of other events are untouched. *)
Theorem remove_hooks_unregisters own_pid st :
  let st' := remove_hooks own_pid st in
  let remaining := recorded_pids st ∖ {[own_pid]} in
  recorded_pids st' = remaining
  /\ (own_pid ∉ recorded_pids st')
  /\ Tmux.lock_file st' = join " " (elements remaining)
  /\ (remaining = ∅ ->
      Forall (fun event => Tmux.hooks st' !! event = None) events)
  /\ (remaining <> ∅ ->
      Forall (fun event =>
                Tmux.hooks st' !! event
                = Some (command_template +:+ Tmux.lock_file st')) events)
  /\ (forall event,
      event ∉ events -> Tmux.hooks st' !! event = Tmux.hooks st !! event).
Proof.
  intros st' remaining.
  assert (Forall word (elements remaining)) as Hwords
    by (apply (recorded_pids_words st); set_solver).
  assert (st' = update_hooks remaining st) as Hst by reflexivity.
  clearbody st'. subst st'.
  destruct (update_hooks_spec remaining st Hwords) as (Hfile & Hpids & Hhooks).
  split; [done |]. split; [rewrite Hpids; set_solver |].
  split; [done |]. split; [| split].
  - intros Hempty. apply Forall_forall. intros event Hin.
    by rewrite Hhooks, decide_True, decide_True.
  - intros Hne. apply Forall_forall. intros event Hin.
    by rewrite Hhooks, decide_True, decide_False, Hfile.
  - intros event Hnin. by rewrite Hhooks, decide_False.
Qed.

Lemma remove_hooks_unregisters_witness :
  Tmux.hooks (remove_hooks "4711" own_session) !! "pane-mode-changed" = None
  /\ Tmux.hooks (remove_hooks "4712" shared_session) !! "pane-mode-changed"
     = Some (command_template
             +:+ Tmux.lock_file (remove_hooks "4712" shared_session)).
Proof.
  assert ("pane-mode-changed" ∈ events) as Hevent
    by (unfold events; set_solver).
  split.
  - destruct (remove_hooks_unregisters "4711" own_session)
      as (_ & _ & _ & Hnone & _).
    assert (recorded_pids own_session ∖ {["4711"]} = ∅) as Hlast.
    { unfold recorded_pids.
      change (split (Tmux.lock_file own_session)) with ["4711"].
      set_solver. }
    pose proof (Hnone Hlast) as H. rewrite Forall_forall in H. by apply H.
  - destruct (remove_hooks_unregisters "4712" shared_session)
      as (_ & _ & _ & _ & Hsome & _).
    assert (recorded_pids shared_session ∖ {["4712"]} <> ∅) as Hleft.
    { unfold recorded_pids.
      change (split (Tmux.lock_file shared_session)) with ["4711"; "4712"].
      assert ("4711" <> "4712") by discriminate. set_solver. }
    pose proof (Hsome Hleft) as H. rewrite Forall_forall in H. by apply H.
Defined.

(** * Further properties *)

(** ** The draw policy *)

(** Whatever an action does to the placements, it leaves the windows, the
    offset and the placements of the other identifiers alone. *)
Lemma apply_body_cases files self rt rt0 r :
  AddImageAction.apply_body files self rt = (rt0, r) ->
  (exists e, r = Py.Raise e
             /\ (rt0 = rt \/ rt0 = log_decode (AddImageAction.path self) rt))
  \/ (exists mtime image last_modified,
        r = Py.Return ()
        /\ getmtime files (AddImageAction.path self) = Py.Return mtime
        /\ (mtime <= last_modified)%Q
        /\ let m := <[AddImageAction.identifier self :=
                        placed self image last_modified]>
                      (View.media (view rt)) in
           (rt0 = set_media m rt
            \/ rt0 = set_media m (log_decode (AddImageAction.path self) rt))).
Proof.
  unfold AddImageAction.apply_body.
  destruct (getmtime files (AddImageAction.path self)) as [mtime | e] eqn:Hm.
  2: { intros [= <- <-]. left. eauto. }
  assert (forall rt1 r1,
             match AddImageAction.load_image files (AddImageAction.path self)
             with
             | Py.Return image =>
                 (set_media
                    (<[AddImageAction.identifier self :=
                         placed self image mtime]>
                       (View.media (view (log_decode (AddImageAction.path self) rt))))
                    (log_decode (AddImageAction.path self) rt), Py.Return ())
             | Py.Raise e => (log_decode (AddImageAction.path self) rt, Py.Raise e)
             end = (rt1, r1) ->
             (exists e, r1 = Py.Raise e
                        /\ (rt1 = rt
                            \/ rt1 = log_decode (AddImageAction.path self) rt))
             \/ (exists mtime' image last_modified,
                   r1 = Py.Return ()
                   /\ Py.Return mtime = Py.Return mtime'
                   /\ (mtime' <= last_modified)%Q
                   /\ let m := <[AddImageAction.identifier self :=
                                   placed self image last_modified]>
                                 (View.media (view rt)) in
                      (rt1 = set_media m rt
                       \/ rt1 = set_media m
                                  (log_decode (AddImageAction.path self) rt))))
    as Hreload.
  { intros rt1 r1.
    destruct (AddImageAction.load_image files (AddImageAction.path self))
      as [image | e]; intros [= <- <-].
    - right. exists mtime, image, mtime.
      split; [done |]. split; [done |]. split; [apply Qle_refl |]. by right.
    - left. eauto. }
  destruct (View.media (view rt) !! AddImageAction.identifier self)
    as [old |]; simpl; [| apply Hreload].
  destruct (Qltb (Placement.last_modified old) mtime) eqn:Hlt; simpl;
    [apply Hreload |].
  destruct (negb _); [apply Hreload |].
  intros [= <- <-]. right.
  exists mtime, (Placement.image old), (Placement.last_modified old).
  split; [done |]. split; [done |]. split; [by apply Qltb_ge |]. by left.
Qed.

(** X1.  An action whose draw policy is synchronous paints at once,
    whether or not it raised: exactly one repaint is added, of the windows
    against the view as the action left it, and neither the flag nor the
    scheduled tasks change. *)
Theorem synchronous_draw_paints_at_once files a rt :
  synchronous a ->
  let rt' := fst (apply files a rt) in
  repaints rt' = (repaints rt ++ [mkRepaint (windows rt) (view rt')])%list
  /\ tasks rt' = tasks rt
  /\ redraw_scheduled rt' = redraw_scheduled rt.
Proof.
  intros [Hd Hs] rt'. subst rt'.
  destruct (apply_through_policy files a rt) as (rt0 & -> & Hf & Ht & Hr & Hw).
  unfold DrawAction.apply. rewrite Hd, Hs. simpl.
  by rewrite Hf, Ht, Hr, Hw.
Qed.

Lemma synchronous_draw_paints_at_once_witness :
  let rt' := fst (apply no_files (Add (add_now "preview" "/missing.png"))
                    two_placements) in
  length (repaints rt') = 1%nat /\ tasks rt' = [].
Proof.
  destruct (synchronous_draw_paints_at_once no_files
              (Add (add_now "preview" "/missing.png")) two_placements)
    as (Hp & Ht & _); [split; reflexivity |].
  cbv zeta. rewrite Hp, Ht. split; reflexivity.
Defined.

(** X2.  An action whose [draw] is false paints nothing and schedules
    nothing, whatever its [synchronously_draw]. *)
Theorem silent_action_never_draws files a rt :
  silent a ->
  let rt' := fst (apply files a rt) in
  repaints rt' = repaints rt
  /\ tasks rt' = tasks rt
  /\ redraw_scheduled rt' = redraw_scheduled rt.
Proof.
  intros Hd rt'. subst rt'.
  destruct (apply_through_policy files a rt) as (rt0 & -> & Hf & Ht & Hr & _).
  unfold DrawAction.apply. unfold silent in Hd. by rewrite Hd.
Qed.

Lemma silent_action_never_draws_witness :
  let rt' := fst (apply no_files (Remove (remove_silently "preview"))
                    two_placements) in
  repaints rt' = [] /\ tasks rt' = []
  /\ View.media (view rt') !! "preview" = None.
Proof.
  destruct (silent_action_never_draws no_files
              (Remove (remove_silently "preview")) two_placements)
    as (Hp & Ht & _); [reflexivity |].
  cbv zeta. rewrite Hp, Ht. split; [reflexivity |]. split; [reflexivity |].
  vm_compute. reflexivity.
Defined.

(** The loop leaves flag and tasks in agreement once the redraw ran. *)
Lemma run_until_idle_coherent rt :
  tasks rt = [RedrawTask] -> coherent (run_until_idle rt).
Proof. intros Ht. by rewrite (run_until_idle_redraw _ Ht). Qed.

(** X3.  The scheduler re-arms: two runs of deferred-draw actions with the
    loop running until idle after each give exactly two repaints, the
    first of the view as the first run left it and the second of the view
    as the second run left it. *)
Theorem redraw_rearms cmds1 cmds2 rt :
  cmds1 <> [] -> cmds2 <> [] ->
  Forall (fun c => deferred (snd c)) cmds1 ->
  Forall (fun c => deferred (snd c)) cmds2 ->
  coherent rt ->
  let rt1 := apply_all cmds1 rt in
  let rt2 := apply_all cmds2 (run_until_idle rt1) in
  repaints (run_until_idle rt2)
  = (repaints rt ++ [mkRepaint (windows rt1) (view rt1);
                     mkRepaint (windows rt2) (view rt2)])%list
  /\ redraw_scheduled (run_until_idle rt2) = false
  /\ tasks (run_until_idle rt2) = [].
Proof.
  intros Hne1 Hne2 Hall1 Hall2 Hc rt1 rt2.
  destruct (deferred_all _ rt Hall1 Hc) as (_ & Hr1 & Hs1).
  destruct (Hs1 Hne1) as [_ Ht1]. fold rt1 in Hr1, Ht1.
  pose proof (run_until_idle_coherent _ Ht1) as Hc1.
  destruct (deferred_all _ _ Hall2 Hc1) as (_ & Hr2 & Hs2).
  destruct (Hs2 Hne2) as [_ Ht2]. fold rt2 in Hr2, Ht2.
  rewrite (run_until_idle_redraw _ Ht2). simpl.
  rewrite Hr2, (run_until_idle_redraw _ Ht1). simpl.
  by rewrite Hr1, <- app_assoc.
Qed.

Lemma redraw_rearms_witness :
  length (repaints
            (run_until_idle
               (apply_all example_commands
                  (run_until_idle
                     (apply_all example_commands example_runtime)))))
  = 2%nat.
Proof.
  destruct (redraw_rearms example_commands example_commands example_runtime)
    as (Hp & _).
  - discriminate.
  - discriminate.
  - repeat constructor.
  - repeat constructor.
  - reflexivity.
  - cbv zeta in Hp. rewrite Hp. reflexivity.
Defined.

(** ** Placements *)

(** X4.  An action changes the placement of no identifier but its own,
    and never the windows or the pane offset. *)
Theorem action_touches_one_entry files a rt :
  let rt' := fst (apply files a rt) in
  windows rt' = windows rt
  /\ View.offset (view rt') = View.offset (view rt)
  /\ forall id, id <> identifier_of a ->
       View.media (view rt') !! id = View.media (view rt) !! id.
Proof.
  intros rt'. subst rt'. destruct a as [a | a]; simpl.
  - unfold AddImageAction.apply.
    destruct (AddImageAction.apply_body files a rt) as [rt0 r] eqn:Hb. simpl.
    rewrite DrawAction_apply_windows, DrawAction_apply_view.
    destruct (apply_body_cases _ _ _ _ _ Hb)
      as [(e & _ & [-> | ->]) | (mtime & image & lm & _ & _ & _ & [-> | ->])];
      simpl; (split; [done |]); (split; [done |]); intros id Hid; try done;
      by rewrite lookup_insert_ne.
  - unfold RemoveImageAction.apply, RemoveImageAction.apply_body.
    case_bool_decide; simpl;
      rewrite DrawAction_apply_windows, DrawAction_apply_view; simpl;
      (split; [done |]); (split; [done |]); intros id Hid; try done;
      by rewrite lookup_delete_ne.
Qed.

(** X5.  Adding the same image again while the file system stays as it
    is: the second application decodes nothing and leaves the placements
    as the first one left them. *)
Theorem add_twice_is_add_once files self rt rt1 :
  AddImageAction.apply files self rt = (rt1, Py.Return ()) ->
  let out := AddImageAction.apply files self rt1 in
  snd out = Py.Return ()
  /\ decoded (fst out) = decoded rt1
  /\ View.media (view (fst out)) = View.media (view rt1).
Proof.
  unfold AddImageAction.apply at 1.
  destruct (AddImageAction.apply_body files self rt) as [rt0 r] eqn:Hb.
  intros Heq. injection Heq as <- ->. cbv zeta.
  destruct (apply_body_cases _ _ _ _ _ Hb)
    as [(e & [=] & _) | (mtime & image & lm & _ & Hm & Hle & Hrt0)].
  set (m := <[AddImageAction.identifier self := placed self image lm]>
              (View.media (view rt))) in *.
  assert (View.media (view rt0) = m) as Hmedia
    by (destruct Hrt0 as [-> | ->]; reflexivity).
  set (rt1 := DrawAction.apply (AddImageAction.drawable self) rt0).
  assert (View.media (view rt1) = m) as Hmedia1
    by (subst rt1; by rewrite DrawAction_apply_view).
  assert (View.media (view rt1) !! AddImageAction.identifier self
          = Some (placed self image lm)) as Hold
    by (rewrite Hmedia1; apply lookup_insert_eq).
  rewrite (apply_after_body _ _ _ _ _
             (apply_body_hit files self rt1 _ mtime Hold Hm eq_refl Hle)).
  simpl. rewrite DrawAction_apply_decoded, DrawAction_apply_view. simpl.
  split; [done |]. split; [done |].
  rewrite Hmedia1. subst m. apply insert_insert_eq.
Qed.

Lemma add_twice_is_add_once_witness :
  let files := example_files (11 # 1) in
  let self := example_add "preview" "/tmp/a.png" in
  let rt1 := fst (AddImageAction.apply files self example_runtime) in
  decoded rt1 = ["/tmp/a.png"]
  /\ decoded (fst (AddImageAction.apply files self rt1)) = ["/tmp/a.png"].
Proof.
  cbv zeta. split; [reflexivity |].
  destruct (add_twice_is_add_once (example_files (11 # 1))
              (example_add "preview" "/tmp/a.png") example_runtime
              (fst (AddImageAction.apply (example_files (11 # 1))
                      (example_add "preview" "/tmp/a.png") example_runtime)))
    as (_ & Hd & _); [reflexivity |].
  rewrite Hd. reflexivity.
Defined.

(** X6.  Removing what was just added restores the placements, when the
    identifier had none before. *)
Theorem remove_undoes_add files add remove rt rt1 :
  RemoveImageAction.identifier remove = AddImageAction.identifier add ->
  View.media (view rt) !! AddImageAction.identifier add = None ->
  AddImageAction.apply files add rt = (rt1, Py.Return ()) ->
  View.media (view (fst (RemoveImageAction.apply remove rt1)))
  = View.media (view rt).
Proof.
  intros Hid Hnone. unfold AddImageAction.apply.
  destruct (AddImageAction.apply_body files add rt) as [rt0 r] eqn:Hb.
  intros [= <- ->].
  destruct (apply_body_cases _ _ _ _ _ Hb)
    as [(e & [=] & _) | (mtime & image & lm & _ & _ & _ & Hrt0)].
  unfold RemoveImageAction.apply, RemoveImageAction.apply_body.
  rewrite Hid, !DrawAction_apply_view.
  assert (View.media (view rt0)
          = <[AddImageAction.identifier add := placed add image lm]>
              (View.media (view rt))) as ->
    by (destruct Hrt0 as [-> | ->]; reflexivity).
  rewrite bool_decide_eq_true_2 by (rewrite dom_insert_L; set_solver).
  simpl. rewrite DrawAction_apply_view. simpl.
  by rewrite delete_insert_eq, delete_id.
Qed.

Lemma remove_undoes_add_witness :
  let files := example_files (11 # 1) in
  let rt1 := fst (AddImageAction.apply files (example_add "new" "/tmp/a.png")
                    example_runtime) in
  View.media (view rt1) !! "new" <> None
  /\ View.media (view (fst (RemoveImageAction.apply (example_remove "new") rt1)))
     = View.media (view example_runtime).
Proof.
  cbv zeta. split; [vm_compute; discriminate |].
  apply (remove_undoes_add (example_files (11 # 1))
           (example_add "new" "/tmp/a.png") (example_remove "new")
           example_runtime); reflexivity.
Defined.

Lemma action_touches_one_entry_witness :
  let rt' := fst (apply (example_files (11 # 1))
                    (Add (add_now "preview" "/tmp/a.png")) two_placements) in
  View.media (view rt') !! "other" = Some second_placement
  /\ View.offset (view rt') = (3, 4).
Proof.
  destruct (action_touches_one_entry (example_files (11 # 1))
              (Add (add_now "preview" "/tmp/a.png")) two_placements)
    as (_ & Ho & Hm).
  cbv zeta. rewrite Ho, (Hm "other"); [| discriminate].
  split; reflexivity.
Defined.

(** ** Loading an image, continued *)

Lemma blend8_range m a b :
  eight_bit m -> eight_bit a -> eight_bit b -> eight_bit (Image.blend8 m a b).
Proof.
  unfold eight_bit, Image.blend8. intros Hm Ha Hb.
  assert (0 <= a * (255 - m) + b * m <= 65025) as Hsum by nia.
  rewrite !Z.shiftr_div_pow2 by lia. change (2 ^ 8) with 256.
  Z.div_mod_to_equations. lia.
Qed.

Lemma blend_pixel_range m o s :
  eight_bit m -> eight_bit_rgb o -> eight_bit_rgb s ->
  eight_bit_rgb (Image.blend_pixel m o s).
Proof.
  destruct o as [[r1 g1] b1], s as [[r2 g2] b2]. simpl.
  intros Hm (? & ? & ?) (? & ? & ?). repeat split; by apply blend8_range.
Qed.

Lemma blend_pixel_opaque o s :
  eight_bit_rgb s -> Image.blend_pixel 255 o s = s.
Proof.
  destruct o as [[r1 g1] b1], s as [[r2 g2] b2]. simpl.
  intros (? & ? & ?). by rewrite !blend8_opaque.
Qed.

Lemma blend_pixels_length out src mask :
  length (Image.blend_pixels out src mask) = length out.
Proof.
  revert src mask. induction out as [| o out IH]; intros [| s src] [| m mask];
    simpl; try done. by rewrite IH.
Qed.

Lemma copy_pixels_length out src :
  length (Image.copy_pixels out src) = length out.
Proof.
  revert src. induction out as [| o out IH]; intros [| s src]; simpl;
    try done. by rewrite IH.
Qed.

Lemma copy_pixels_full out src :
  length src = length out -> Image.copy_pixels out src = src.
Proof.
  revert src. induction out as [| o out IH]; intros [| s src]; simpl;
    try done. intros [= H]. by rewrite IH.
Qed.

Lemma blend_pixels_range out src mask :
  Forall eight_bit_rgb out -> Forall eight_bit_rgb src ->
  Forall eight_bit mask ->
  Forall eight_bit_rgb (Image.blend_pixels out src mask).
Proof.
  intros Hout. revert src mask.
  induction Hout as [| o out Ho Hout IH]; intros src mask Hsrc Hmask;
    [destruct src, mask; constructor |].
  destruct Hsrc as [| s src Hs Hsrc]; [simpl; by constructor |].
  destruct Hmask as [| m mask Hm Hmask]; [simpl; by constructor |].
  simpl. constructor; [by apply blend_pixel_range | by apply IH].
Qed.

Lemma copy_pixels_range out src :
  Forall eight_bit_rgb out -> Forall eight_bit_rgb src ->
  Forall eight_bit_rgb (Image.copy_pixels out src).
Proof.
  intros Hout. revert src.
  induction Hout as [| o out Ho Hout IH]; intros src Hsrc;
    [destruct src; constructor |].
  destruct Hsrc as [| s src Hs Hsrc]; [simpl; by constructor |].
  simpl. constructor; [done | by apply IH].
Qed.

(** What [remove_opacity] returns, in one. *)
Lemma remove_opacity_pixels im :
  exists px,
    AddImageAction.remove_opacity im
    = Py.Return (Image.mk (Image.size im) (Image.RGB px))
    /\ px = (if composited im
             then Image.blend_pixels (repeat AddImageAction.white (area im))
                    (Image.rgb_pixels im)
                    (Image.opacity <$> Image.rgba_pixels im)
             else Image.copy_pixels (repeat AddImageAction.white (area im))
                    (Image.rgb_pixels im)).
Proof.
  destruct (composited im) eqn:Hc; eexists; (split; [| reflexivity]).
  - by apply remove_opacity_composited.
  - by apply remove_opacity_pasted.
Qed.

(** The shape of what [load_image] returns. *)
Lemma load_image_shape files path im out :
  Image_open files path = Py.Return im ->
  AddImageAction.load_image files path = Py.Return out ->
  exists px,
    out = Image.mk (Image.size im) (Image.RGB px)
    /\ length px = area im
    /\ px = (if composited im
             then Image.blend_pixels (repeat AddImageAction.white (area im))
                    (Image.rgb_pixels im)
                    (Image.opacity <$> Image.rgba_pixels im)
             else Image.copy_pixels (repeat AddImageAction.white (area im))
                    (Image.rgb_pixels im)).
Proof.
  intros Hopen. unfold AddImageAction.load_image. rewrite Hopen. simpl.
  destruct (remove_opacity_pixels im) as (px & -> & Hpx). intros [= <-].
  exists px. split; [done |]. split; [| done]. rewrite Hpx.
  destruct (composited im);
    [rewrite blend_pixels_length | rewrite copy_pixels_length];
    apply repeat_length.
Qed.

(** X7.  The image [load_image] returns has exactly as many pixels as the
    size of the source says, however many pixels the source holds; and when
    the bands of the source are eight-bit values, so are those of the
    result. *)
Theorem load_image_well_formed files path im out :
  Image_open files path = Py.Return im ->
  AddImageAction.load_image files path = Py.Return out ->
  Image.size out = Image.size im
  /\ full out
  /\ (Forall eight_bit_rgba (Image.rgba_pixels im) ->
      Forall eight_bit_rgb (Image.rgb_pixels out)).
Proof.
  intros Hopen Hload.
  destruct (load_image_shape _ _ _ _ Hopen Hload) as (px & -> & Hlen & Hpx).
  assert (Forall eight_bit_rgb (repeat AddImageAction.white (area im)))
    as Hwhite.
  { apply Forall_forall. intros p Hp. apply list_elem_of_In in Hp.
    apply repeat_spec in Hp as ->. unfold eight_bit_rgb, eight_bit. simpl.
    lia. }
  split; [done |]. split.
  - unfold full, area, Image.rgba_pixels. simpl. by rewrite length_fmap.
  - intros Hsrc. rewrite rgb_pixels_RGB, Hpx.
    assert (Forall eight_bit_rgb (Image.rgb_pixels im)) as Hrgb.
    { unfold Image.rgb_pixels. apply Forall_fmap.
      eapply Forall_impl; [exact Hsrc |]. by intros p [? _]. }
    destruct (composited im).
    + apply blend_pixels_range; [done | done |].
      apply Forall_fmap. eapply Forall_impl; [exact Hsrc |]. by intros p [_ ?].
    + by apply copy_pixels_range.
Qed.

Lemma load_image_well_formed_witness :
  exists out,
    AddImageAction.load_image (files_holding colour_alpha_image) "/tmp/a.png"
    = Py.Return out
    /\ full out /\ Forall eight_bit_rgb (Image.rgb_pixels out).
Proof.
  eexists. split; [reflexivity |].
  destruct (load_image_well_formed (files_holding colour_alpha_image)
              "/tmp/a.png" colour_alpha_image _ eq_refl eq_refl) as (_ & Hf & Hr).
  split; [exact Hf |]. apply Hr.
  repeat constructor; unfold eight_bit; simpl; lia.
Defined.

(** X8.  A fully opaque pixel of an image that is composited keeps its
    colour, when its bands are eight-bit values. *)
Theorem opaque_pixel_keeps_colour files path im out i p :
  Image_open files path = Py.Return im ->
  AddImageAction.load_image files path = Py.Return out ->
  composited im = true ->
  (i < area im)%nat ->
  Image.rgba_pixels im !! i = Some p ->
  Image.opacity p = 255 ->
  eight_bit_rgb (Image.colour p) ->
  Image.rgb_pixels out !! i = Some (Image.colour p).
Proof.
  intros Hopen. unfold AddImageAction.load_image. rewrite Hopen. simpl.
  intros Hload Hc Hi Hp Ha Hbits.
  rewrite (remove_opacity_composited im Hc) in Hload. injection Hload as <-.
  rewrite rgb_pixels_RGB.
  rewrite (blend_pixels_lookup _ _ _ _ _ (Image.colour p) (Image.opacity p) Hi).
  - by rewrite Ha, blend_pixel_opaque.
  - unfold Image.rgb_pixels. by rewrite list_lookup_fmap, Hp.
  - by rewrite list_lookup_fmap, Hp.
Qed.

Lemma opaque_pixel_keeps_colour_witness :
  exists out,
    AddImageAction.load_image (files_holding colour_alpha_image) "/tmp/a.png"
    = Py.Return out
    /\ Image.rgb_pixels out !! 1%nat = Some (4, 5, 6).
Proof.
  eexists. split; [reflexivity |].
  apply (opaque_pixel_keeps_colour (files_holding colour_alpha_image)
           "/tmp/a.png" colour_alpha_image _ 1%nat (4, 5, 6, 255));
    try reflexivity.
  - vm_compute. lia.
  - unfold eight_bit_rgb, eight_bit. simpl. lia.
Defined.

(** X9.  What [load_image] returns is a fixed point of its normalisation:
    loading a file that holds the result gives the result back.  So does
    any image in mode RGB that has as many pixels as its size says. *)
Theorem load_image_idempotent files path im out :
  Image_open files path = Py.Return im ->
  AddImageAction.load_image files path = Py.Return out ->
  (forall path',
      AddImageAction.load_image (files_holding out) path' = Py.Return out)
  /\ forall sz px,
      length px = Z.to_nat (fst sz * snd sz) ->
      AddImageAction.remove_opacity (Image.mk sz (Image.RGB px))
      = Py.Return (Image.mk sz (Image.RGB px)).
Proof.
  intros Hopen Hload.
  assert (forall sz px,
             length px = Z.to_nat (fst sz * snd sz) ->
             AddImageAction.remove_opacity (Image.mk sz (Image.RGB px))
             = Py.Return (Image.mk sz (Image.RGB px))) as Hrgb.
  { intros sz px Hlen.
    rewrite remove_opacity_pasted by done. unfold area. simpl.
    rewrite rgb_pixels_RGB, copy_pixels_full; [done |].
    by rewrite repeat_length. }
  split; [| exact Hrgb].
  destruct (load_image_shape files path im out Hopen Hload)
    as (px & -> & Hlen & _).
  intros path'. unfold AddImageAction.load_image. simpl. by apply Hrgb.
Qed.

Lemma load_image_idempotent_witness :
  exists out,
    AddImageAction.load_image (files_holding colour_alpha_image) "/tmp/a.png"
    = Py.Return out
    /\ AddImageAction.load_image (files_holding out) "/tmp/b.png"
       = Py.Return out.
Proof.
  destruct (load_image_idempotent (files_holding colour_alpha_image)
              "/tmp/a.png" colour_alpha_image
              (Image.mk (2, 1) (Image.RGB [(255, 255, 255); (4, 5, 6)]))
              eq_refl eq_refl) as [Hagain _].
  eexists. split; [reflexivity | exact (Hagain "/tmp/b.png")].
Defined.

(** ** Decoding a command *)


Lemma Command_of_returns v c :
  Command_of v = Py.Return c -> v = Py.VStr (get_action_name c).
Proof.
  unfold Command_of. destruct v as [| | | | s |]; try discriminate.
  destruct (String.eqb_spec s (get_action_name ADD)) as [-> | _];
    [by intros [= <-] |].
  destruct (String.eqb_spec s (get_action_name REMOVE)) as [-> | _];
    [by intros [= <-] | discriminate].
Qed.

(** X10.  [Command(value)] succeeds on the two action names and on
    nothing else: a name gives back the member it names, a member comes
    only from its name, and any other value is a [ValueError]. *)
Theorem Command_round_trip :
  (forall c, Command_of (Py.VStr (get_action_name c)) = Py.Return c)
  /\ (forall v c, Command_of v = Py.Return c ->
                  v = Py.VStr (get_action_name c))
  /\ (forall v, (forall c, v <> Py.VStr (get_action_name c)) ->
                Command_of v = Py.Raise Py.ValueError).
Proof.
  split; [by intros [] | split].
  - apply Command_of_returns.
  - intros v Hv. unfold Command_of.
    destruct v as [| | | | s |]; try done.
    destruct (String.eqb_spec s (get_action_name ADD)) as [-> | _];
      [by destruct (Hv ADD) |].
    destruct (String.eqb_spec s (get_action_name REMOVE)) as [-> | _];
      [by destruct (Hv REMOVE) | done].
Qed.

Lemma Command_round_trip_witness :
  Command_of (Py.VStr "remove") = Py.Return REMOVE
  /\ Command_of (Py.VStr "Add") = Py.Raise Py.ValueError.
Proof.
  destruct Command_round_trip as (Hname & _ & Hother).
  split; [apply (Hname REMOVE) |].
  apply Hother. intros []; discriminate.
Defined.





Lemma but_last_append s c : but_last (s +:+ String c EmptyString) = s.
Proof.
  induction s as [| c0 s IH]; [done |].
  rewrite append_cons. cbn [but_last]. rewrite IH.
  destruct s; reflexivity.
Qed.

(** X13.  The decoder is given the line without its last character,
    whatever that character is: a line is decoded the same with its
    newline as with any other last character, and a last line that lacks
    the newline loses a character of its own. *)
Theorem last_character_is_dropped dec s c :
  but_last (s +:+ String c EmptyString) = s
  /\ decode dec (s +:+ String c EmptyString) = decode dec (s +:+ newline).
Proof.
  split; [apply but_last_append |].
  unfold decode, newline. by rewrite !but_last_append.
Qed.

Lemma int_overflow f v :
  Py.int f v = Py.Raise Py.OverflowError ->
  v = Py.VFloat Py.Inf \/ v = Py.VFloat Py.NegInf.
Proof.
  destruct v as [| b | z | [q | | |] | s |]; simpl; try discriminate; auto.
  destruct (f s); discriminate.
Qed.

Lemma tame_never_overflows e :
  Py.isinstance e handled = true -> e <> Py.OverflowError.
Proof. intros H ->. discriminate H. Qed.

(** X14.  With a decoder and a boolean conversion that raise only what
    the consumer handles, a line fails to decode with [OverflowError] only
    when it is an [add] command one of whose integer attributes is given
    as an infinite float. *)
Theorem overflow_needs_infinity dec line :
  tame_decoding dec ->
  decode dec line = Py.Raise Py.OverflowError ->
  exists d name,
    parse dec (but_last line) = Py.Return (Mapping d)
    /\ d !! "action" = Some (Py.VStr "add")
    /\ name ∈ int_attributes
    /\ (d !! name = Some (Py.VFloat Py.Inf)
        \/ d !! name = Some (Py.VFloat Py.NegInf)).
Proof.
  intros [Hparse Hbool] H. unfold decode in H.
  apply bind_raises in H as [H | (data & Hdata & H)];
    [by apply Hparse, tame_never_overflows in H |].
  apply bind_raises in H as [H | (v & Hv & H)].
  { destruct data as [d | ?]; simpl in H; [destruct (d !! "action") |];
      discriminate. }
  apply bind_raises in H as [H | (command & Hcommand & H)].
  { unfold Command_of in H. destruct v; try discriminate.
    repeat (destruct (String.eqb _ _); [discriminate |]). discriminate. }
  destruct data as [d | ?]; [| discriminate].
  simpl in Hv. destruct (d !! "action") as [v' |] eqn:Haction; [| discriminate].
  injection Hv as ->.
  apply Command_of_returns in Hcommand as ->.
  assert (forall name dflt,
             name ∈ int_attributes ->
             Py.int (int_of_str dec) (default (Py.VInt dflt) (d !! name))
             = Py.Raise Py.OverflowError ->
             d !! name = Some (Py.VFloat Py.Inf)
             \/ d !! name = Some (Py.VFloat Py.NegInf)) as Hint.
  { intros name dflt _ Hi. apply int_overflow in Hi.
    destruct (d !! name) as [w |]; simpl in Hi; [| by destruct Hi].
    destruct Hi as [-> | ->]; auto. }
  assert (forall e, Drawable_init dec d = Py.Raise e -> e <> Py.OverflowError)
    as Hdrawable.
  { intros e He. unfold Drawable_init, converted in He.
    apply bind_raises in He as [He | (? & _ & He)];
      [by apply Hbool, tame_never_overflows in He |].
    apply bind_raises in He as [He | (? & _ & He)];
      [by apply Hbool, tame_never_overflows in He | done]. }
  unfold action_class in H. destruct command; apply fmap_raises in H.
  - exists d. unfold AddImageAction_init, converted, mandatory in H.
    cbv zeta in H.
    apply bind_raises in H as [H | (? & _ & H)].
    { unfold bind_keywords in H. destruct (_ && _); discriminate. }
    apply bind_raises in H as [H | (? & _ & H)]; [by apply Hdrawable in H |].
    apply bind_raises in H as [H | (? & _ & H)].
    { unfold str_attribute in H. destruct (d !! "identifier") as [[] |];
        discriminate. }
    apply bind_raises in H as [H | (? & _ & H)].
    { exists "x". destruct (d !! "x") as [w |] eqn:Hw; [| discriminate].
      apply int_overflow in H as [-> | ->];
        (split; [done |]); (split; [done |]);
        (split; [unfold int_attributes; set_solver | auto]). }
    apply bind_raises in H as [H | (? & _ & H)].
    { exists "y". destruct (d !! "y") as [w |] eqn:Hw; [| discriminate].
      apply int_overflow in H as [-> | ->];
        (split; [done |]); (split; [done |]);
        (split; [unfold int_attributes; set_solver | auto]). }
    apply bind_raises in H as [H | (? & _ & H)].
    { unfold str_attribute in H. destruct (d !! "path") as [[] |];
        discriminate. }
    assert (forall name, name ∈ int_attributes ->
              Py.int (int_of_str dec) (default (Py.VInt 0) (d !! name))
              = Py.Raise Py.OverflowError ->
              exists name,
                parse dec (but_last line) = Py.Return (Mapping d)
                /\ d !! "action" = Some (Py.VStr "add")
                /\ name ∈ int_attributes
                /\ (d !! name = Some (Py.VFloat Py.Inf)
                    \/ d !! name = Some (Py.VFloat Py.NegInf))) as Hopt.
    { intros name Hin Hi. exists name. repeat (split; [done |]).
      by eapply Hint. }
    apply bind_raises in H as [H | (? & _ & H)];
      [apply (Hopt "width"); [unfold int_attributes; set_solver | done] |].
    apply bind_raises in H as [H | (? & _ & H)];
      [apply (Hopt "max_width"); [unfold int_attributes; set_solver | done] |].
    apply bind_raises in H as [H | (? & _ & H)];
      [apply (Hopt "height"); [unfold int_attributes; set_solver | done] |].
    apply bind_raises in H as [H | (? & _ & H)];
      [apply (Hopt "max_height"); [unfold int_attributes; set_solver | done] |].
    discriminate.
  - unfold RemoveImageAction_init in H.
    apply bind_raises in H as [H | (? & _ & H)].
    { unfold bind_keywords in H. destruct (_ && _); discriminate. }
    apply bind_raises in H as [H | (? & _ & H)]; [by apply Hdrawable in H |].
    apply bind_raises in H as [H | (? & _ & H)]; [| discriminate].
    unfold str_attribute in H. destruct (d !! "identifier") as [[] |];
      discriminate.
Qed.

Lemma example_decoding_tame : tame_decoding example_decoding.
Proof.
  split.
  - intros line e. simpl. unfold example_parse.
    repeat (destruct (String.eqb _ _); [discriminate |]).
    by intros [= <-].
  - intros v e. simpl. destruct v; try discriminate; by intros [= <-].
Qed.


Lemma overflow_needs_infinity_witness :
  exists d name,
    parse example_decoding (but_last overflow_line) = Py.Return (Mapping d)
    /\ name ∈ int_attributes
    /\ (d !! name = Some (Py.VFloat Py.Inf)
        \/ d !! name = Some (Py.VFloat Py.NegInf)).
Proof.
  destruct (overflow_needs_infinity example_decoding overflow_line
              example_decoding_tame)
    as (d & name & Hparse & _ & Hname & Hinf); [by vm_compute |].
  by exists d, name.
Defined.

(** ** The command consumer, continued *)



(** X16.  Lines are consumed in order: when the first part of an input has
    no empty line and lets no exception escape, consuming the whole input
    is consuming the second part from the state the first part leaves. *)
Theorem consume_in_order dec input1 input2 rt :
  Forall (fun item => fst item <> EmptyString) input1 ->
  snd (consume dec input1 rt) = Py.Return () ->
  consume dec (input1 ++ input2) rt
  = consume dec input2 (fst (consume dec input1 rt)).
Proof.
  intros Hall. revert rt.
  induction Hall as [| [line files] input1 Hline _ IH]; intros rt;
    [done |].
  cbn [app consume]. simpl in Hline. apply String.eqb_neq in Hline as ->.
  destruct (execute dec files line rt) as [rt' [[] | e]]; [apply IH |].
  destruct (Py.isinstance e handled); [apply IH | discriminate].
Qed.

Lemma consume_in_order_witness :
  consume example_decoding
    ([(add_line, no_files)] ++ [(remove_line, no_files)]) example_runtime
  = consume example_decoding [(remove_line, no_files)]
      (fst (consume example_decoding [(add_line, no_files)] example_runtime)).
Proof.
  apply (consume_in_order example_decoding [(add_line, no_files)]
           [(remove_line, no_files)] example_runtime).
  - repeat constructor. discriminate.
  - by vm_compute.
Defined.



(** ** Re-enumerating the terminal windows, continued *)

(** When no terminal window is tracked twice, the windows after
    [query_windows] are those of the reported ids, none twice. *)
Lemma query_windows_tracks infos offset rt :
  NoDup (parent_id <$> windows rt) ->
  tracked_ids (windows (query_windows infos offset rt)) = reported_ids infos
  /\ NoDup (parent_id <$> windows (query_windows infos offset rt)).
Proof.
  intros Hnd.
  pose proof (query_windows_unfold infos offset rt) as Hq. cbv zeta in Hq.
  set (P := reported_ids infos) in *.
  set (T := tracked_ids (windows rt)) in *.
  destruct (decide (P = T)) as [HPT | HPT].
  { rewrite Hq, (bool_decide_eq_true_2 _ HPT). simpl. by rewrite HPT. }
  rewrite Hq, (bool_decide_eq_false_2 _ HPT). simpl.
  set (added := omap (fun wid => dict_by window_id infos !! wid)
                  (elements (P ∖ T))).
  set (removed := omap (fun wid => dict_by parent_id (windows rt) !! wid)
                    (elements (T ∖ P))).
  assert (Forall2 (fun wid info => window_id info = wid /\ info ∈ infos)
            (elements (P ∖ T)) added) as Hadded.
  { apply dict_by_get_all, Forall_forall. intros wid Hwid.
    rewrite dict_by_dom. apply elem_of_elements in Hwid.
    fold (reported_ids infos). fold P. set_solver. }
  assert (Forall2 (fun wid w => parent_id w = wid /\ w ∈ windows rt)
            (elements (T ∖ P)) removed) as Hremoved.
  { apply dict_by_get_all, Forall_forall. intros wid Hwid.
    rewrite dict_by_dom. apply elem_of_elements in Hwid.
    fold (tracked_ids (windows rt)). fold T. set_solver. }
  destruct (Forall2_keys _ _ _ _ Hadded) as [Hak _].
  destruct (Forall2_keys _ _ _ _ Hremoved) as [Hrk Hrin].
  assert (parent_id <$> create added = elements (P ∖ T)) as Hcreated.
  { unfold create. rewrite <- list_fmap_compose. exact Hak. }
  destruct (isub_ids removed (windows rt ++ create added)) as [Hnd' Hset].
  - rewrite fmap_app, Hcreated. apply NoDup_app.
    split; [done |]. split; [| apply NoDup_elements].
    intros wid Hw Ha. apply elem_of_elements in Ha.
    assert (wid ∈ T) by (subst T; unfold tracked_ids;
                         by rewrite elem_of_list_to_set).
    set_solver.
  - rewrite Hrk. apply NoDup_elements.
  - eapply Forall_impl; [exact Hrin |]. intros w Hw.
    apply elem_of_app. by left.
  - split; [| done]. rewrite Hset. unfold tracked_ids.
    rewrite fmap_app, Hcreated, Hrk, list_to_set_app_L.
    rewrite !list_to_set_elements_L. fold (tracked_ids (windows rt)).
    fold T. apply set_eq. intros x.
    destruct (decide (x ∈ P)), (decide (x ∈ T)); set_solver.
Qed.

(** X18.  [query_windows] settles: run again on the same report, it
    records the offset and does nothing else, so it neither paints nor
    changes a window.  And it never touches the placements, the flag or
    the scheduled tasks. *)
Theorem query_windows_settles infos offset1 offset2 rt :
  NoDup (parent_id <$> windows rt) ->
  let rt1 := query_windows infos offset1 rt in
  query_windows infos offset2 rt1 = set_offset offset2 rt1
  /\ View.media (view rt1) = View.media (view rt)
  /\ redraw_scheduled rt1 = redraw_scheduled rt
  /\ tasks rt1 = tasks rt.
Proof.
  intros Hnd rt1.
  destruct (query_windows_tracks infos offset1 rt Hnd) as [Hids _].
  fold rt1 in Hids. split.
  - pose proof (query_windows_unfold infos offset2 rt1) as Hq.
    cbv zeta in Hq. rewrite Hq, bool_decide_eq_true_2; done.
  - subst rt1. pose proof (query_windows_unfold infos offset1 rt) as Hq.
    cbv zeta in Hq. rewrite Hq. by case_bool_decide.
Qed.

Lemma query_windows_settles_witness :
  let rt1 := query_windows [terminal 2; terminal 3] (5, 7) tracking_runtime in
  length (repaints rt1) = 1%nat
  /\ repaints (query_windows [terminal 2; terminal 3] (6, 8) rt1)
     = repaints rt1.
Proof.
  destruct (query_windows_settles [terminal 2; terminal 3] (5, 7) (6, 8)
              tracking_runtime) as [Hagain _].
  - simpl. repeat constructor; set_solver.
  - cbv zeta in *. rewrite Hagain. split; [by vm_compute | reflexivity].
Defined.

Lemma tracked_ids_empty ws : tracked_ids ws = ∅ -> ws = [].
Proof.
  unfold tracked_ids. destruct ws as [| w ws]; [done |].
  rewrite fmap_cons, list_to_set_cons. set_solver.
Qed.

(** X19.  When no terminal window is reported any more, every overlay
    window goes; the empty window list is painted once if there was a
    window, and nothing is painted if there was none. *)
Theorem query_windows_without_terminals offset rt :
  NoDup (parent_id <$> windows rt) ->
  let rt' := query_windows [] offset rt in
  windows rt' = []
  /\ (windows rt <> [] ->
      repaints rt' = (repaints rt ++ [mkRepaint [] (view rt')])%list)
  /\ (windows rt = [] -> repaints rt' = repaints rt).
Proof.
  intros Hnd rt'.
  destruct (query_windows_tracks [] offset rt Hnd) as [Hids _].
  fold rt' in Hids. apply tracked_ids_empty in Hids.
  split; [done |].
  pose proof (query_windows_unfold [] offset rt) as Hq. cbv zeta in Hq.
  fold rt' in Hq. split.
  - intros Hws. rewrite bool_decide_eq_false_2 in Hq.
    + assert (repaints rt'
              = (repaints rt ++ [mkRepaint (windows rt') (view rt')])%list)
        as Hpaint by (clearbody rt'; subst rt'; reflexivity).
      by rewrite Hids in Hpaint.
    + intros Heq. apply Hws, tracked_ids_empty. by rewrite <- Heq.
  - intros Hws. clearbody rt'. subst rt'. rewrite Hws. reflexivity.
Qed.

Lemma query_windows_without_terminals_witness :
  let rt' := query_windows [] (0, 0) tracking_runtime in
  windows rt' = [] /\ length (repaints rt') = 1%nat.
Proof.
  destruct (query_windows_without_terminals (0, 0) tracking_runtime)
    as (Hws & Hpaint & _).
  - simpl. repeat constructor; set_solver.
  - cbv zeta in *. split; [exact Hws |]. rewrite Hpaint; [reflexivity |].
    discriminate.
Defined.

(** ** The tmux hooks, continued *)

(** [update_hooks] overwrites what an earlier [update_hooks] left. *)
Lemma update_hooks_absorbs pids pids' st :
  update_hooks pids (update_hooks pids' st) = update_hooks pids st.
Proof.
  unfold update_hooks.
  set (text := join " " (elements pids)).
  set (text' := join " " (elements pids')).
  destruct (update_loop (negb (String.eqb text' EmptyString))
              (command_template +:+ text') events (Tmux.overwrite text' st))
    as [_ Hinner].
  destruct (update_loop (negb (String.eqb text EmptyString))
              (command_template +:+ text) events (Tmux.overwrite text st))
    as [Hfile1 Hhooks1].
  destruct (update_loop (negb (String.eqb text EmptyString))
              (command_template +:+ text) events
              (Tmux.overwrite text
                 (foldl (fun st event =>
                           if negb (String.eqb text' EmptyString)
                           then Tmux.register_hook event
                                  (command_template +:+ text') st
                           else Tmux.unregister_hook event st)
                    (Tmux.overwrite text' st) events)))
    as [Hfile2 Hhooks2].
  cbv zeta in *.
  match goal with |- ?l = ?r =>
    destruct l as [f2 h2] eqn:El, r as [f1 h1] eqn:Er end.
  simpl in *. f_equal; [congruence |].
  apply map_eq. intros event. rewrite Hhooks1, Hhooks2.
  destruct (decide (event ∈ events)) as [Hin | Hnin]; [done |].
  simpl. rewrite Hinner. by rewrite decide_False.
Qed.

(** Starting and exiting, in terms of the recorded pids. *)
Lemma hook_event_spec st ev :
  proper ev ->
  hook_event st ev = update_hooks (running (recorded_pids st) ev) st
  /\ Forall word (elements (running (recorded_pids st) ev))
  /\ recorded_pids (hook_event st ev) = running (recorded_pids st) ev.
Proof.
  intros Hev.
  assert (Forall word (elements (running (recorded_pids st) ev))) as Hwords.
  { apply Forall_forall. intros w Hw. apply elem_of_elements in Hw.
    pose proof (recorded_pids_words st (recorded_pids st)
                  ltac:(set_solver)) as Hold.
    rewrite Forall_forall in Hold.
    destruct ev as [pid | pid]; simpl in Hw, Hev.
    - apply elem_of_union in Hw as [Hw | Hw].
      + apply Hold. by apply elem_of_elements.
      + apply elem_of_singleton in Hw as ->. done.
    - apply Hold. apply elem_of_elements. set_solver. }
  assert (hook_event st ev = update_hooks (running (recorded_pids st) ev) st)
    as Heq by (by destruct ev).
  split; [done |]. split; [done |].
  rewrite Heq. by destruct (update_hooks_spec _ st Hwords) as (_ & ? & _).
Qed.

Lemma hook_events_spec evs : forall st,
  Forall proper evs -> evs <> [] ->
  hook_events evs st
  = update_hooks (foldl running (recorded_pids st) evs) st
  /\ Forall word (elements (foldl running (recorded_pids st) evs)).
Proof.
  unfold hook_events.
  induction evs as [| ev evs IH]; intros st Hall Hne; [done |].
  apply Forall_cons in Hall as [Hev Hall]. cbn [foldl].
  destruct (hook_event_spec st ev Hev) as (Heq & Hwords & Hrec).
  destruct evs as [| ev' evs]; [done |].
  destruct (IH (hook_event st ev) Hall ltac:(done)) as [IHeq IHwords].
  rewrite Hrec in IHeq, IHwords. split; [| done].
  rewrite IHeq, Heq. apply update_hooks_absorbs.
Qed.


(** X20.  After [setup_tmux_hooks] by a process whose pid is a word, the
    registry records the pids it recorded before together with the new
    one, and every watched event has the hook that signals them all; no
    other hook changes. *)
Theorem setup_registers_own_pid own_pid st :
  word own_pid ->
  let st' := setup_tmux_hooks own_pid st in
  recorded_pids st' = recorded_pids st ∪ {[own_pid]}
  /\ own_pid ∈ recorded_pids st'
  /\ Forall (fun event =>
               Tmux.hooks st' !! event
               = Some (command_template +:+ Tmux.lock_file st')) events
  /\ (forall event, event ∉ events ->
        Tmux.hooks st' !! event = Tmux.hooks st !! event).
Proof.
  intros Hown st'.
  destruct (hook_event_spec st (Starts own_pid) Hown) as (Heq & Hwords & Hrec).
  simpl in Heq, Hwords, Hrec. fold st' in Heq, Hrec.
  destruct (update_hooks_spec _ st Hwords) as (Hfile & _ & Hhooks).
  rewrite <- Heq in Hfile, Hhooks.
  split; [done |]. split; [rewrite Hrec; set_solver |]. split.
  - apply Forall_forall. intros event Hin.
    rewrite Hhooks, decide_True, decide_False, Hfile; [done | | done].
    set_solver.
  - intros event Hnin. by rewrite Hhooks, decide_False.
Qed.

Lemma setup_registers_own_pid_witness :
  "4713" ∈ recorded_pids (setup_tmux_hooks "4713" shared_session)
  /\ "4711" ∈ recorded_pids (setup_tmux_hooks "4713" shared_session).
Proof.
  destruct (setup_registers_own_pid "4713" shared_session)
    as (Hrec & Hin & _); [split; [discriminate | reflexivity] |].
  split; [exact Hin |]. cbv zeta in Hrec. rewrite Hrec.
  apply elem_of_union. left. unfold recorded_pids.
  change (split (Tmux.lock_file shared_session)) with ["4711"; "4712"].
  set_solver.
Defined.



Lemma watched_pane_mode : "pane-mode-changed" ∈ events.
Proof. unfold events. set_solver. Qed.





(** X23.  Through any sequence of starts and exits the registry records
    exactly the processes that started and have not exited since, besides
    those recorded at the outset that have not exited; the hook of every
    watched event signals exactly them, and there is none when there are
    none. *)
Theorem registry_tracks_running evs st :
  Forall proper evs -> evs <> [] ->
  let st' := hook_events evs st in
  let pids := foldl running (recorded_pids st) evs in
  recorded_pids st' = pids
  /\ Tmux.lock_file st' = join " " (elements pids)
  /\ hooks_signal pids st'.
Proof.
  intros Hall Hne st' pids.
  destruct (hook_events_spec evs st Hall Hne) as [Heq Hwords].
  fold st' pids in Heq, Hwords.
  destruct (update_hooks_spec _ st Hwords) as (Hfile & Hrec & Hhooks).
  rewrite <- Heq in Hfile, Hrec, Hhooks.
  split; [done |]. split; [done |].
  intros event Hin. by rewrite Hhooks, decide_True.
Qed.

Lemma registry_tracks_running_witness :
  let st' := hook_events [Starts "1"; Starts "2"; Exits "1"; Exits "2"]
               empty_session in
  recorded_pids st' = ∅
  /\ Tmux.hooks st' !! "pane-mode-changed" = None.
Proof.
  destruct (registry_tracks_running
              [Starts "1"; Starts "2"; Exits "1"; Exits "2"] empty_session)
    as (Hrec & _ & Hhooks).
  - repeat constructor; discriminate.
  - discriminate.
  - assert (foldl running (recorded_pids empty_session)
              [Starts "1"; Starts "2"; Exits "1"; Exits "2"] = ∅) as Hnone.
    { simpl. unfold recorded_pids.
      change (split (Tmux.lock_file empty_session)) with (@nil string).
      set_solver. }
    cbv zeta in *. rewrite Hnone in Hrec, Hhooks. split; [exact Hrec |].
    rewrite (Hhooks "pane-mode-changed"); [reflexivity |].
    apply watched_pane_mode.
Defined.

(** ** The end of the input *)

Lemma apply_coherent files a rt :
  coherent rt -> coherent (fst (apply files a rt)).
Proof.
  intros Hc.
  destruct (apply_through_policy files a rt) as (rt0 & -> & Hf & Ht & _).
  unfold coherent in *. unfold DrawAction.apply, DrawAction.schedule_redraw.
  rewrite Hf. rewrite <- Ht in Hc.
  destruct (Drawable.draw (drawable_of a)),
    (Drawable.synchronously_draw (drawable_of a)),
    (redraw_scheduled rt) eqn:Hflag; simpl; rewrite ?Hf, ?Hflag, ?Hc; done.
Qed.

Lemma consume_coherent dec input : forall rt,
  coherent rt -> coherent (fst (consume dec input rt)).
Proof.
  induction input as [| [line files] input IH]; intros rt Hc; [done |].
  cbn [consume]. destruct (String.eqb line EmptyString); [done |].
  unfold execute. destruct (decode dec line) as [a | e].
  - pose proof (apply_coherent files a rt Hc) as Hc'.
    destruct (apply files a rt) as [rt' [[] | e]]; simpl in Hc';
      [by apply IH |].
    destruct (Py.isinstance e handled); [by apply IH | done].
  - destruct (Py.isinstance e handled); [by apply IH | done].
Qed.

(** X24.  However the consumer ends, running the loop afterwards stops
    it: a redraw that was still scheduled is painted first, against the
    final view, then the shutdown task runs, and no task is left. *)
Theorem end_of_input_stops_the_loop dec input rt :
  coherent rt ->
  let rt1 := fst (consume dec input rt) in
  let rt2 := run_until_idle (fst (main_commands dec input rt)) in
  stopped rt2 = true
  /\ tasks rt2 = []
  /\ view rt2 = view rt1
  /\ repaints rt2
     = (repaints rt1 ++
        if redraw_scheduled rt1 then [mkRepaint (windows rt1) (view rt1)]
        else [])%list.
Proof.
  intros Hc rt1 rt2.
  pose proof (consume_coherent dec input rt Hc) as Hc1. fold rt1 in Hc1.
  subst rt2. unfold main_commands.
  destruct (consume dec input rt) as [rt' r]. simpl in rt1. subst rt1.
  unfold coherent in Hc1. simpl.
  unfold run_until_idle, ensure_future. simpl. rewrite Hc1.
  destruct (redraw_scheduled rt'); simpl; unfold loop_step; simpl;
    rewrite ?app_nil_r; done.
Qed.

Lemma end_of_input_stops_the_loop_witness :
  let rt2 := run_until_idle
               (fst (main_commands example_decoding
                       [(remove_line, no_files)] example_runtime)) in
  stopped rt2 = true /\ length (repaints rt2) = 1%nat.
Proof.
  destruct (end_of_input_stops_the_loop example_decoding
              [(remove_line, no_files)] example_runtime eq_refl)
    as (Hs & _ & _ & Hp).
  cbv zeta in *. split; [exact Hs |]. rewrite Hp. by vm_compute.
Defined.

(** X25.  For a given identifier and path the recorded modification time
    never decreases: after a successful add over a placement from the
    same path, the recorded time is at least the one recorded before and
    at least the time the source reports now. *)
Theorem recorded_time_never_decreases files self rt old rt1 :
  View.media (view rt) !! AddImageAction.identifier self = Some old ->
  Placement.path old = AddImageAction.path self ->
  AddImageAction.apply files self rt = (rt1, Py.Return ()) ->
  exists new mtime,
    View.media (view rt1) !! AddImageAction.identifier self = Some new
    /\ getmtime files (AddImageAction.path self) = Py.Return mtime
    /\ (Placement.last_modified old <= Placement.last_modified new)%Q
    /\ (mtime <= Placement.last_modified new)%Q.
Proof.
  intros Hold Hpath. unfold AddImageAction.apply.
  destruct (AddImageAction.apply_body files self rt) as [rt0 r] eqn:Hb.
  intros Heq. injection Heq as <- ->.
  destruct (apply_body_cases _ _ _ _ _ Hb)
    as [(e & [=] & _) | (mtime & image & lm & _ & Hm & Hle & Hrt0)].
  rewrite DrawAction_apply_view.
  destruct (Qlt_le_dec (Placement.last_modified old) mtime) as [Hlt | Hge].
  - assert (stale self rt mtime) as Hs by (right; exists old; auto).
    pose proof (apply_body_miss files self rt mtime Hm Hs) as Hmiss.
    rewrite Hb in Hmiss.
    destruct (AddImageAction.load_image files (AddImageAction.path self))
      as [image' | e]; [| discriminate].
    injection Hmiss as ->.
    exists (placed self image' mtime), mtime. simpl.
    rewrite lookup_insert_eq. split; [done |]. split; [done |].
    split; [by apply Qlt_le_weak | apply Qle_refl].
  - pose proof (apply_body_hit files self rt old mtime Hold Hm Hpath Hge)
      as Hhit.
    rewrite Hb in Hhit. injection Hhit as ->.
    exists (placed self (Placement.image old) (Placement.last_modified old)),
      mtime. simpl.
    rewrite lookup_insert_eq. split; [done |]. split; [done |].
    split; [apply Qle_refl | done].
Qed.

Lemma recorded_time_never_decreases_witness :
  exists new,
    View.media
      (view (fst (AddImageAction.apply (example_files (5 # 1))
                    (example_add "preview" "/tmp/a.png") example_runtime)))
    !! "preview" = Some new
    /\ (10 # 1 <= Placement.last_modified new)%Q.
Proof.
  destruct (recorded_time_never_decreases (example_files (5 # 1))
              (example_add "preview" "/tmp/a.png") example_runtime
              example_placement
              (fst (AddImageAction.apply (example_files (5 # 1))
                      (example_add "preview" "/tmp/a.png") example_runtime)))
    as (new & mtime & Hnew & _ & Hold & _); try reflexivity.
  exists new. split; [exact Hnew | exact Hold].
Defined.
